(** * Ashby charts for fluids and strings: derived quantities

    A shallow embedding of the data derivations of the notebook
    [Ashby_charts.py]: the bulk-modulus column of the fluid table, the
    unit conversions, note-name parsing, fundamental frequency, mass per
    unit length and display name of the two string tables, and the
    wave-speed / impedance grids drawn as contours.

    Number model.  The notebook computes with binary64 values.  The
    loader is embedded over the real numbers [R], the arithmetic the
    formulas of the notebook are written in ([2 ** x] is [Rpower 2 x]).
    The two contour cells are written once over an interface [Arith] and
    used at [R] and at Rocq's binary64 [float], where [sqrt] of a negative
    number is NaN and division by zero is an infinity, as in numpy.

    Strings.  A Python [str] is embedded as a [string] whose characters
    are the code points below 256; on those, [int] of a one-character
    string succeeds on the ten digits '0'..'9' only. *)

From Stdlib Require Import Reals Lra Lia ZArith Floats.
From Stdlib Require Import Bool Ascii String List.
From Stdlib Require Import Permutation Sorted.
Import ListNotations.

Open Scope string_scope.

(** ** Python outcomes *)

(** The built-in exceptions the embedded statements can raise. *)
Inductive exn : Type :=
| ValueError
| IndexError
| TypeError.

(** A Python expression evaluates to a value or raises. *)
Inductive outcome (A : Type) : Type :=
| Ok (a : A)
| Raise (e : exn).

Arguments Ok {A} a.
Arguments Raise {A} e.

Definition bind {A B : Type} (m : outcome A) (k : A -> outcome B) : outcome B :=
  match m with
  | Ok a => k a
  | Raise e => Raise e
  end.

Notation "x <- m ;; k" := (bind m (fun x => k))
  (at level 61, m at next level, right associativity).

(** ** Python primitives used by the note parser *)

Module Py.

(** [s[:-1]]: all characters but the last; the empty string for a
    string of length 0 or 1. *)
Fixpoint drop_last (s : string) : string :=
  match s with
  | EmptyString => EmptyString
  | String c EmptyString => EmptyString
  | String c s' => String c (drop_last s')
  end.

(** [s[-1]]: the last character; [IndexError] on the empty string. *)
Fixpoint last_char (s : string) : outcome ascii :=
  match s with
  | EmptyString => Raise IndexError
  | String c EmptyString => Ok c
  | String _ s' => last_char s'
  end.

(** [l.index(x)]: position of the first element equal to [x];
    [ValueError] when there is none. *)
Fixpoint index (x : string) (l : list string) : outcome nat :=
  match l with
  | [] => Raise ValueError
  | y :: l' =>
      if String.eqb y x then Ok 0%nat
      else n <- index x l' ;; Ok (S n)
  end.

Definition is_digit (c : ascii) : bool :=
  let n := nat_of_ascii c in (48 <=? n)%nat && (n <=? 57)%nat.

(** [int(c)] for a one-character string [c]: its value when it is a
    decimal digit, [ValueError] otherwise (sign, blank, letter, ...). *)
Definition int_of_char (c : ascii) : outcome Z :=
  if is_digit c then Ok (Z.of_nat (nat_of_ascii c) - 48)%Z
  else Raise ValueError.

End Py.

(** ** Note names and fundamental frequency *)

(** [note_names]: the twelve letter classes, a sharp written [s]. *)
Definition note_names : list string :=
  ["C"; "Cs"; "D"; "Ds"; "E"; "F"; "Fs"; "G"; "Gs"; "A"; "As"; "B"].

(** The body of the row loop:
<<
    semitones = note_names.index(row['Note'][:-1])
    ... = 440 * 2 ** (int(row['Note'][-1]) - 4 + (semitones - 9)/12)
>> *)
Definition frequency (note : string) : outcome R :=
  semitones <- Py.index (Py.drop_last note) note_names ;;
  c <- Py.last_char note ;;
  octave <- Py.int_of_char c ;;
  Ok (440 * Rpower 2 (IZR octave - 4 + (IZR (Z.of_nat semitones) - 9) / 12))%R.

(** The note name built from a position in [note_names] and an octave
    number: the letter class followed by the octave's decimal digit. *)
Definition digit_char (octave : nat) : ascii := ascii_of_nat (48 + octave).

Definition note_name (semitones octave : nat) : string :=
  nth semitones note_names "" ++ String (digit_char octave) "".

(** ** The fluid table *)

(** A row of [fluids]; the index (the fluid's name) is kept beside it.
    [Bulk_modulus] is [None] until the column is assigned. *)
Record fluid : Type := mkFluid {
  Density : R;
  Sound_speed : R;
  Phase : string;
  Bulk_modulus : option R
}.

Definition fluid_frame : Type := list (string * fluid).

(** A row as [read_csv] delivers it: the three columns of the file. *)
Definition csv_fluid (rho c : R) (phase : string) : fluid :=
  mkFluid rho c phase None.

(** [fluids.loc[name]]: the row labelled [name]. *)
Fixpoint loc (fluids : fluid_frame) (name : string) : option fluid :=
  match fluids with
  | [] => None
  | (k, row) :: rest => if String.eqb k name then Some row else loc rest name
  end.

(** [fluids.loc[name] = [rho, c, phase]] on the three-column table: the
    row labelled [name] is overwritten, or appended when there is none. *)
Fixpoint loc_set_row (fluids : fluid_frame) (name : string) (rho c : R)
    (phase : string) : fluid_frame :=
  match fluids with
  | [] => [(name, csv_fluid rho c phase)]
  | (k, row) :: rest =>
      if String.eqb k name then (k, csv_fluid rho c phase) :: rest
      else (k, row) :: loc_set_row rest name rho c phase
  end.

(** [fluids['Bulk modulus'] = fluids['Density']*fluids['Sound speed']**2] *)
Definition assign_bulk_modulus (fluids : fluid_frame) : fluid_frame :=
  map (fun kr : string * fluid =>
         let (k, row) := kr in
         (k, mkFluid (Density row) (Sound_speed row) (Phase row)
               (Some (Density row * Sound_speed row ^ 2)%R)))
      fluids.

(** [fluids.loc[name, 'Density'] = v]: one cell is written, the other
    cells of the row are left as they are. *)
Definition set_density (fluids : fluid_frame) (name : string) (v : R)
    : fluid_frame :=
  map (fun kr : string * fluid =>
         let (k, row) := kr in
         if String.eqb k name
         then (k, mkFluid v (Sound_speed row) (Phase row) (Bulk_modulus row))
         else (k, row))
      fluids.

(** [fluids.loc[name, 'Sound speed'] = v] *)
Definition set_sound_speed (fluids : fluid_frame) (name : string) (v : R)
    : fluid_frame :=
  map (fun kr : string * fluid =>
         let (k, row) := kr in
         if String.eqb k name
         then (k, mkFluid (Density row) v (Phase row) (Bulk_modulus row))
         else (k, row))
      fluids.

(** ** The string tables *)

(** A row of [strings_g] or [strings].  A text cell left empty in the
    file is NaN, here [None]; the derived columns are [None] (NaN) until
    they are assigned.  The Note cell of a row is text; what the row loop
    does on a blank Note cell is given by [frequency_of_cell] and
    [frequency_column] below. *)
Record string_row : Type := mkString {
  Type_ : option string;
  Instrument : option string;
  String_type : option string;
  Note : string;
  Tension_kg : R;
  Scale_cm : R;
  Tension_N : option R;
  Scale_m : option R;
  Frequency_Hz : option R;
  Mass_per_length : option R;
  Name : option string
}.

Definition string_frame : Type := list string_row.

(** A row as [read_csv] delivers it. *)
Definition csv_string (type instrument string_type : option string)
    (note : string) (tension_kg scale_cm : R) : string_row :=
  mkString type instrument string_type note tension_kg scale_cm
           None None None None None.

Definition set_Tension_N (r : string_row) (v : option R) : string_row :=
  mkString (Type_ r) (Instrument r) (String_type r) (Note r) (Tension_kg r)
           (Scale_cm r) v (Scale_m r) (Frequency_Hz r) (Mass_per_length r)
           (Name r).

Definition set_Scale_m (r : string_row) (v : option R) : string_row :=
  mkString (Type_ r) (Instrument r) (String_type r) (Note r) (Tension_kg r)
           (Scale_cm r) (Tension_N r) v (Frequency_Hz r) (Mass_per_length r)
           (Name r).

Definition set_Frequency_Hz (r : string_row) (v : option R) : string_row :=
  mkString (Type_ r) (Instrument r) (String_type r) (Note r) (Tension_kg r)
           (Scale_cm r) (Tension_N r) (Scale_m r) v (Mass_per_length r)
           (Name r).

Definition set_Mass_per_length (r : string_row) (v : option R) : string_row :=
  mkString (Type_ r) (Instrument r) (String_type r) (Note r) (Tension_kg r)
           (Scale_cm r) (Tension_N r) (Scale_m r) (Frequency_Hz r) v
           (Name r).

Definition set_Name (r : string_row) (v : option string) : string_row :=
  mkString (Type_ r) (Instrument r) (String_type r) (Note r) (Tension_kg r)
           (Scale_cm r) (Tension_N r) (Scale_m r) (Frequency_Hz r)
           (Mass_per_length r) v.

(** [strings['Tension [N]'] = strings['Tension (kg)'] * 9.81] *)
Definition assign_tension (strings : string_frame) : string_frame :=
  map (fun r => set_Tension_N r (Some (Tension_kg r * 9.81)%R)) strings.

(** [strings['Scale [m]'] = strings['Scale (cm)']/100] *)
Definition assign_scale (strings : string_frame) : string_frame :=
  map (fun r => set_Scale_m r (Some (Scale_cm r / 100)%R)) strings.

(** The row loop
<<
    for index, row in strings.iterrows():
        semitones = ...
        strings.loc[index, 'Frequency [Hz]'] = ...
>>
    The rows are visited in order; a row whose note does not parse raises
    and ends the loop, leaving that row and the later ones without a
    frequency.  The result is the table as the loop leaves it and the
    exception, if any. *)
Fixpoint frequency_loop (strings : string_frame)
    : string_frame * option exn :=
  match strings with
  | [] => ([], None)
  | row :: rest =>
      match frequency (Note row) with
      | Raise e => (row :: rest, Some e)
      | Ok f =>
          let (rest', e) := frequency_loop rest in
          (set_Frequency_Hz row (Some f) :: rest', e)
      end
  end.

(** One cell of
    [strings['Tension [N]'] / (4*(strings['Scale [m]'])**2 * strings['Frequency [Hz]']**2)] *)
Definition mass_per_length (tension scale freq : R) : R :=
  (tension / (4 * scale ^ 2 * freq ^ 2))%R.

(** The column assignment; a NaN operand gives a NaN cell. *)
Definition assign_mass (strings : string_frame) : string_frame :=
  map (fun r =>
         set_Mass_per_length r
           match Tension_N r, Scale_m r, Frequency_Hz r with
           | Some t, Some l, Some f => Some (mass_per_length t l f)
           | _, _, _ => None
           end)
      strings.

(** [+] on two text columns (or a column and a constant): concatenation
    cell by cell, NaN where either operand is NaN. *)
Definition str_add (a b : option string) : option string :=
  match a, b with
  | Some x, Some y => Some (x ++ y)
  | _, _ => None
  end.

(** [strings_g['Name'] = strings_g['Type'] + ' ' + strings_g['String type']] *)
Definition name_guitar (r : string_row) : option string :=
  str_add (str_add (Type_ r) (Some " ")) (String_type r).

Definition assign_name_guitar (strings_g : string_frame) : string_frame :=
  map (fun r => set_Name r (name_guitar r)) strings_g.

(** [pd.isnull] on one cell. *)
Definition isnull {A : Type} (cell : option A) : bool :=
  match cell with
  | None => true
  | Some _ => false
  end.

(**
<<
    strings['Name'] = strings['Type'] + ' ' + strings['Instrument']
    notype = pd.isnull(strings['Name'])
    strings.loc[notype, 'Name'] = strings.loc[notype, 'Instrument']
>> *)
Definition name_various (r : string_row) : option string :=
  let name := str_add (str_add (Type_ r) (Some " ")) (Instrument r) in
  let notype := isnull name in
  if notype then Instrument r else name.

Definition assign_name_various (strings : string_frame) : string_frame :=
  map (fun r => set_Name r (name_various r)) strings.

(** The guitar cells of the notebook, in order.  An exception ends the
    run with the table as it then is. *)
Definition load_guitar (csv : string_frame) : string_frame * option exn :=
  match frequency_loop (assign_scale (assign_tension csv)) with
  | (strings_g, Some e) => (strings_g, Some e)
  | (strings_g, None) => (assign_name_guitar (assign_mass strings_g), None)
  end.

(** The cell of the other instruments. *)
Definition load_various (csv : string_frame) : string_frame * option exn :=
  match frequency_loop (assign_scale (assign_tension csv)) with
  | (strings, Some e) => (strings, Some e)
  | (strings, None) => (assign_name_various (assign_mass strings), None)
  end.

(** ** Contour grids *)

(** The three operations the grids use, at the number type of the
    arrays. *)
Class Arith (A : Type) : Type := {
  mul : A -> A -> A;
  div : A -> A -> A;
  sqrt : A -> A
}.

#[export] Instance R_arith : Arith R :=
  {| mul := Rmult; div := Rdiv; sqrt := R_sqrt.sqrt |}.

#[export] Instance float_arith : Arith float :=
  {| mul := PrimFloat.mul; div := PrimFloat.div; sqrt := PrimFloat.sqrt |}.

Section Contours.

Context {A : Type} `{Arith A}.

(** A two-dimensional array, a list of rows. *)
Definition grid : Type := list (list A).

(** [np.meshgrid(x, y)]: two arrays of [len(y)] rows and [len(x)]
    columns; row [i], column [j] holds [x[j]] in the first and [y[i]] in
    the second. *)
Definition meshgrid (x y : list A) : grid * grid :=
  (map (fun _ => x) y, map (fun yi => map (fun _ => yi) x) y).

(** An operator applied cell by cell to two arrays of one shape. *)
Definition map2 {B : Type} (f : B -> B -> B) (l1 l2 : list B) : list B :=
  map (fun p => f (fst p) (snd p)) (combine l1 l2).

Definition grid_map2 (f : A -> A -> A) (g1 g2 : grid) : grid :=
  map2 (map2 f) g1 g2.

Definition grid_map (f : A -> A) (g : grid) : grid := map (map f) g.

(** One cell of [z = np.sqrt(tau_grid*mu_grid)]. *)
Definition z_cell (tau mu : A) : A := sqrt (mul tau mu).

(** One cell of [c = np.sqrt(tau_grid/mu_grid)]. *)
Definition c_cell (tau mu : A) : A := sqrt (div tau mu).

(**
<<
    mu_grid, tau_grid = np.meshgrid(mu, tau)
    z = np.sqrt(tau_grid*mu_grid)
    c = np.sqrt(tau_grid/mu_grid)
>>
    None of the three statements raises: the result is always [Ok (z, c)]. *)
Definition contours (mu tau : list A) : outcome (grid * grid) :=
  let (mu_grid, tau_grid) := meshgrid mu tau in
  let z := grid_map sqrt (grid_map2 mul tau_grid mu_grid) in
  let c := grid_map sqrt (grid_map2 div tau_grid mu_grid) in
  Ok (z, c).

(** [g[i][j]] *)
Definition cell (g : grid) (i j : nat) : option A :=
  match nth_error g i with
  | Some row => nth_error row j
  | None => None
  end.

End Contours.

(** ** The formulas of the specification *)

(** The signed semitone distance of a letter class from A, the class at
    position 9 of [note_names]. *)
Definition letter_index_from_A (semitones : nat) : Z := Z.of_nat semitones - 9.

(** Equal temperament referenced to A4 = 440 Hz, as the specification
    writes it: 440 x 2^((letter_index_from_A + 12 x (octave - 4)) / 12). *)
Definition equal_temperament (letter_from_A octave : Z) : R :=
  (440 * Rpower 2 (IZR (letter_from_A + 12 * (octave - 4)) / 12))%R.

(** The order of two notes by (octave, letter-class index). *)
Definition note_lt (s1 o1 s2 o2 : nat) : Prop :=
  (o1 < o2)%nat \/ (o1 = o2 /\ (s1 < s2)%nat).

(** The wave speed of a string of scale length [L] sounding [f]: the
    wave travels twice the length in one period, [c = 2fL]. *)
Definition wave_speed (f L : R) : R := (2 * f * L)%R.

(** [c in s] for a character and a string. *)
Fixpoint contains (c : ascii) (s : string) : bool :=
  match s with
  | EmptyString => false
  | String a s' => Ascii.eqb a c || contains c s'
  end.

(** A string made of decimal digits only. *)
Fixpoint all_digits (s : string) : bool :=
  match s with
  | EmptyString => true
  | String a s' => Py.is_digit a && all_digits s'
  end.

(** A note name of the two-part pattern: a letter class of [note_names]
    followed by one octave digit. *)
Definition two_part (note : string) : Prop :=
  exists s o : nat, (s < 12)%nat /\ (o < 10)%nat /\ note = note_name s o.

(** ** Further statements of the notebook *)

(** [np.linspace(start, stop, num)]: [num] samples, the step being
    [(stop - start) / (num - 1)]. *)
Definition linspace (start stop : R) (num : nat) : list R :=
  map (fun i => (INR i * ((stop - start) / INR (num - 1)) + start)%R)
      (seq 0 num).

(** [np.logspace(start, stop, num)]: [10 ** np.linspace(start, stop, num)]. *)
Definition logspace (start stop : R) (num : nat) : list R :=
  map (Rpower 10) (linspace start stop num).

(** [np.log10], on a positive number. *)
Definition log10 (x : R) : R := (ln x / ln 10)%R.

(** The constants of the ideal-gas comparison. *)
Definition P : R := 101.325e3%R.

Definition gamma_monatomic : R := (5 / 3)%R.

Definition gamma_diatomic : R := (7 / 5)%R.

(** One point of [np.sqrt(gamma*P/rho)]. *)
Definition ideal_gas_speed (gamma rho : R) : R :=
  R_sqrt.sqrt (gamma * P / rho).

(** [z_air = rho_air*c_air], for the row of a fluid. *)
Definition impedance (row : fluid) : R := (Density row * Sound_speed row)%R.

(** The [contours] dictionary of a highlighted pair of contours:
    [start = np.log10(lo)], [end = np.log10(hi)],
    [size = np.log10(hi/lo)]. *)
Record contour_levels : Type := mkLevels {
  level_start : R;
  level_end : R;
  level_size : R
}.

Definition highlight_levels (lo hi : R) : contour_levels :=
  mkLevels (log10 lo) (log10 hi) (log10 (hi / lo)).

(** [fluids[fluids['Phase'] == phase]]: the rows of one phase, in the
    order of the table. *)
Definition of_phase (fluids : fluid_frame) (phase : string) : fluid_frame :=
  filter (fun kr : string * fluid => String.eqb (Phase (snd kr)) phase) fluids.

(** [frame[-n:]]: the last [n] rows, all of them when there are fewer. *)
Definition last_rows {A : Type} (n : nat) (frame : list A) : list A :=
  skipn (List.length frame - n) frame.

(** [fluids[fluids['Phase'] == 'gas'].sort_values(by = 'Density')[-5:]],
    for a given implementation of [sort_values(by = 'Density')]. *)
Definition densest_gases (sort_values : fluid_frame -> fluid_frame)
    (fluids : fluid_frame) : fluid_frame :=
  last_rows 5 (sort_values (of_phase fluids "gas")).

(** Rows in ascending order of density. *)
Definition by_density (kr1 kr2 : string * fluid) : Prop :=
  (Density (snd kr1) <= Density (snd kr2))%R.

(** An insertion sort by density, one implementation of [sort_values]. *)
Fixpoint insert_by_density (kr : string * fluid) (sorted : fluid_frame)
    : fluid_frame :=
  match sorted with
  | [] => [kr]
  | kr' :: rest =>
      if Rle_dec (Density (snd kr)) (Density (snd kr'))
      then kr :: kr' :: rest
      else kr' :: insert_by_density kr rest
  end.

Fixpoint insertion_sort_by_density (fluids : fluid_frame) : fluid_frame :=
  match fluids with
  | [] => []
  | kr :: rest => insert_by_density kr (insertion_sort_by_density rest)
  end.

(** [series.unique()]: the distinct values, in order of first
    appearance. *)
Fixpoint unique (values : list string) : list string :=
  match values with
  | [] => []
  | v :: rest => v :: filter (fun w => negb (String.eqb w v)) (unique rest)
  end.

(** [strings_g[strings_g['Note'] == note]] *)
Definition note_set (strings : string_frame) (note : string) : string_frame :=
  filter (fun r => String.eqb (Note r) note) strings.

(** The traces added by
<<
    for i, note in enumerate(strings_g['Note'].unique()):
        note_set = strings_g[strings_g['Note'] == note]
>> *)
Definition note_sets (strings : string_frame) : list (string * string_frame) :=
  map (fun note => (note, note_set strings note)) (unique (map Note strings)).





(** The columns of the file, as one tuple for a row. *)
Definition csv_columns (r : string_row)
    : option string * option string * option string * string * R * R :=
  (Type_ r, Instrument r, String_type r, Note r, Tension_kg r, Scale_cm r).

(** ** Results *)

Open Scope R_scope.

(** *** Python primitives *)

Lemma drop_last_app_char (s : string) (c : ascii) :
  Py.drop_last (s ++ String c "") = s.
Proof.
  induction s as [|a s IH]; simpl; [reflexivity|].
  rewrite IH. destruct s; reflexivity.
Qed.

Lemma last_char_app_char (s : string) (c : ascii) :
  Py.last_char (s ++ String c "") = Ok c.
Proof.
  induction s as [|a s IH]; simpl; [reflexivity|].
  rewrite IH. destruct s; reflexivity.
Qed.

(** A string with a last character is its front part followed by it. *)
Lemma last_char_split (s : string) (c : ascii) :
  Py.last_char s = Ok c -> s = Py.drop_last s ++ String c "".
Proof.
  induction s as [|a s IH]; simpl; [discriminate|].
  destruct s as [|b s'].
  - intros [= ->]. reflexivity.
  - intro Hl. simpl. f_equal. exact (IH Hl).
Qed.

(** [s[-1]] raises only [IndexError], and only on the empty string. *)
Lemma last_char_raise (s : string) (e : exn) :
  Py.last_char s = Raise e -> s = "".
Proof.
  induction s as [|a s IH]; [reflexivity|]. simpl.
  destruct s as [|b s']; [discriminate|].
  intro Hl. specialize (IH Hl). discriminate.
Qed.

Lemma index_raise (x : string) (l : list string) (e : exn) :
  Py.index x l = Raise e -> e = ValueError.
Proof.
  induction l as [|y l IH]; simpl.
  - intros [= <-]. reflexivity.
  - destruct (String.eqb y x); [discriminate|].
    destruct (Py.index x l) as [n|e']; simpl; [discriminate|].
    intros [= <-]. apply IH. reflexivity.
Qed.

(** A successful [index] returns a position holding the element. *)
Lemma index_ok (x : string) (l : list string) (n : nat) :
  Py.index x l = Ok n -> (n < length l)%nat /\ nth n l "" = x.
Proof.
  revert n. induction l as [|y l IH]; simpl; intro n; [discriminate|].
  destruct (String.eqb_spec y x) as [->|Hne].
  - intros [= <-]. split; [lia | reflexivity].
  - destruct (Py.index x l) as [m|e]; simpl; [|discriminate].
    intros [= <-]. destruct (IH m eq_refl) as [Hm Hn]. split; [lia | exact Hn].
Qed.

Lemma int_of_char_raise (c : ascii) (e : exn) :
  Py.int_of_char c = Raise e -> e = ValueError.
Proof.
  unfold Py.int_of_char. destruct (Py.is_digit c); [discriminate|].
  intros [= <-]. reflexivity.
Qed.

(** [int] succeeds exactly on the digit characters, with their value. *)
Lemma int_of_char_ok (c : ascii) (z : Z) :
  Py.int_of_char c = Ok z ->
  exists o : nat, (o < 10)%nat /\ c = digit_char o /\ z = Z.of_nat o.
Proof.
  unfold Py.int_of_char, Py.is_digit. cbv zeta.
  destruct (48 <=? nat_of_ascii c)%nat eqn:Hlo; simpl; [|discriminate].
  destruct (nat_of_ascii c <=? 57)%nat eqn:Hhi; [|discriminate].
  apply Nat.leb_le in Hlo, Hhi. intros [= <-].
  exists (nat_of_ascii c - 48)%nat. repeat split; [lia | | lia].
  unfold digit_char.
  replace (48 + (nat_of_ascii c - 48))%nat with (nat_of_ascii c) by lia.
  symmetry. apply ascii_nat_embedding.
Qed.

Lemma int_of_digit_char (o : nat) :
  (o < 10)%nat -> Py.int_of_char (digit_char o) = Ok (Z.of_nat o).
Proof.
  intro Ho. do 10 (destruct o as [|o]; [reflexivity|]). lia.
Qed.

Lemma index_note_name (s : nat) :
  (s < 12)%nat -> Py.index (nth s note_names "") note_names = Ok s.
Proof.
  intro Hs. do 12 (destruct s as [|s]; [reflexivity|]). lia.
Qed.

(** *** Frequency of a note name *)

Lemma frequency_note_name (s o : nat) :
  (s < 12)%nat -> (o < 10)%nat ->
  frequency (note_name s o) =
  Ok (440 * Rpower 2 (IZR (Z.of_nat o) - 4 + (IZR (Z.of_nat s) - 9) / 12)).
Proof.
  intros Hs Ho. unfold frequency, note_name.
  rewrite drop_last_app_char, last_char_app_char.
  rewrite (index_note_name s Hs). unfold bind at 1 2.
  rewrite (int_of_digit_char o Ho). reflexivity.
Qed.

(** Only names of the two-part pattern have a frequency. *)
Lemma frequency_ok_two_part (note : string) (f : R) :
  frequency note = Ok f -> two_part note.
Proof.
  unfold frequency, bind.
  destruct (Py.index (Py.drop_last note) note_names) as [s|e] eqn:Hi;
    [|discriminate].
  destruct (Py.last_char note) as [c|e] eqn:Hl; [|discriminate].
  destruct (Py.int_of_char c) as [z|e] eqn:Hz; [|discriminate].
  intros _.
  destruct (index_ok _ _ _ Hi) as [Hs Hn].
  destruct (int_of_char_ok _ _ Hz) as (o & Ho & -> & _).
  exists s, o. repeat split; [exact Hs | exact Ho |].
  unfold note_name. rewrite Hn. apply last_char_split. exact Hl.
Qed.

(** Whatever the loop body raises is a [ValueError]: the empty name
    already fails in [index]. *)
Lemma frequency_raise (note : string) (e : exn) :
  frequency note = Raise e -> e = ValueError.
Proof.
  unfold frequency, bind.
  destruct (Py.index (Py.drop_last note) note_names) as [s|e1] eqn:Hi.
  - destruct (Py.last_char note) as [c|e2] eqn:Hl.
    + destruct (Py.int_of_char c) as [z|e3] eqn:Hz; [discriminate|].
      intros [= <-]. exact (int_of_char_raise _ _ Hz).
    + apply last_char_raise in Hl. subst note. discriminate.
  - intros [= <-]. exact (index_raise _ _ _ Hi).
Qed.

Lemma frequency_not_two_part (note : string) :
  ~ two_part note -> frequency note = Raise ValueError.
Proof.
  intro Hn. destruct (frequency note) as [f|e] eqn:Hf.
  - exfalso. apply Hn. exact (frequency_ok_two_part _ _ Hf).
  - f_equal. exact (frequency_raise _ _ Hf).
Qed.

(** The exponent of the notebook and the exponent of the specification
    are the same real number. *)
Lemma exponent_eq (s : nat) (o : Z) :
  IZR o - 4 + (IZR (Z.of_nat s) - 9) / 12 =
  IZR (letter_index_from_A s + 12 * (o - 4)) / 12.
Proof.
  unfold letter_index_from_A.
  rewrite plus_IZR, mult_IZR, !minus_IZR. field.
Qed.

Lemma Rpower_2_lt (x y : R) : x < y -> Rpower 2 x < Rpower 2 y.
Proof. intro H. apply Rpower_lt; lra. Qed.

Lemma exponent_lt (s1 o1 s2 o2 : nat) :
  (s1 < 12)%nat -> (s2 < 12)%nat -> note_lt s1 o1 s2 o2 ->
  IZR (Z.of_nat o1) - 4 + (IZR (Z.of_nat s1) - 9) / 12 <
  IZR (Z.of_nat o2) - 4 + (IZR (Z.of_nat s2) - 9) / 12.
Proof.
  intros H1 H2 Hlt.
  assert (B1 : 0 <= IZR (Z.of_nat s1) <= 11)
    by (split; apply IZR_le; lia).
  assert (B2 : 0 <= IZR (Z.of_nat s2) <= 11)
    by (split; apply IZR_le; lia).
  destruct Hlt as [Ho | [-> Hs]].
  - assert (IZR (Z.of_nat o1) + 1 <= IZR (Z.of_nat o2)).
    { rewrite <- plus_IZR. apply IZR_le. lia. }
    lra.
  - assert (IZR (Z.of_nat s1) < IZR (Z.of_nat s2)) by (apply IZR_lt; lia).
    lra.
Qed.

(** C1: every name made of a letter class of [note_names] and an octave
    digit has the frequency 440 x 2^((letter_index_from_A + 12 x
    (octave - 4)) / 12); A4 is 440 and A3 is 220, exactly; and the
    frequency increases strictly with (octave, letter-class index). *)
Theorem frequency_equal_temperament :
  (forall s o : nat, (s < 12)%nat -> (o < 10)%nat ->
     frequency (note_name s o) =
     Ok (equal_temperament (letter_index_from_A s) (Z.of_nat o)))
  /\ frequency "A4" = Ok 440
  /\ frequency "A3" = Ok 220
  /\ (forall s1 o1 s2 o2 : nat,
        (s1 < 12)%nat -> (o1 < 10)%nat -> (s2 < 12)%nat -> (o2 < 10)%nat ->
        note_lt s1 o1 s2 o2 ->
        exists f1 f2 : R,
          frequency (note_name s1 o1) = Ok f1 /\
          frequency (note_name s2 o2) = Ok f2 /\ f1 < f2).
Proof.
  split; [|split; [|split]].
  - intros s o Hs Ho. rewrite (frequency_note_name s o Hs Ho).
    unfold equal_temperament. rewrite exponent_eq. reflexivity.
  - change "A4" with (note_name 9 4).
    rewrite frequency_note_name by lia. f_equal.
    change (Z.of_nat 4) with 4%Z. change (Z.of_nat 9) with 9%Z.
    replace (4 - 4 + (9 - 9) / 12) with 0 by field.
    rewrite Rpower_O by lra. lra.
  - change "A3" with (note_name 9 3).
    rewrite frequency_note_name by lia. f_equal.
    change (Z.of_nat 3) with 3%Z. change (Z.of_nat 9) with 9%Z.
    replace (3 - 4 + (9 - 9) / 12) with (- (1)) by field.
    rewrite Rpower_Ropp, Rpower_1 by lra. lra.
  - intros s1 o1 s2 o2 Hs1 Ho1 Hs2 Ho2 Hlt.
    rewrite (frequency_note_name s1 o1 Hs1 Ho1).
    rewrite (frequency_note_name s2 o2 Hs2 Ho2).
    do 2 eexists. split; [reflexivity | split; [reflexivity |]].
    apply Rmult_lt_compat_l; [lra |].
    apply Rpower_2_lt. apply exponent_lt; assumption.
Qed.

Lemma frequency_equal_temperament_E2 :
  frequency (note_name 4 2) =
  Ok (equal_temperament (letter_index_from_A 4) (Z.of_nat 2)).
Proof.
  apply (proj1 frequency_equal_temperament 4%nat 2%nat); lia.
Defined.

(** *** Names that do not parse *)

Lemma two_part_frequency (note : string) :
  two_part note -> exists f : R, frequency note = Ok f.
Proof.
  intros (s & o & Hs & Ho & ->). eexists. apply frequency_note_name; assumption.
Qed.

(** No name of the pattern holds the character [#]. *)
Lemma note_name_no_hash (s o : nat) :
  (s < 12)%nat -> (o < 10)%nat -> contains "#" (note_name s o) = false.
Proof.
  intros Hs Ho.
  do 12 (destruct s as [|s];
         [do 10 (destruct o as [|o]; [reflexivity|]); lia|]).
  lia.
Qed.

(** No letter class ends in a digit. *)
Lemma note_names_last_not_digit (s : nat) (c : ascii) :
  (s < 12)%nat -> Py.last_char (nth s note_names "") = Ok c ->
  Py.is_digit c = false.
Proof.
  intro Hs.
  do 12 (destruct s as [|s]; [intros [= <-]; reflexivity|]). lia.
Qed.

Lemma drop_last_app (x d : string) :
  d <> "" -> Py.drop_last (x ++ d) = x ++ Py.drop_last d.
Proof.
  intro Hd. induction x as [|a x IH]; [reflexivity|].
  simpl. rewrite IH.
  destruct (x ++ d) eqn:E; [|reflexivity].
  destruct x; simpl in E; [contradiction | discriminate].
Qed.

Lemma last_char_app (x d : string) :
  d <> "" -> Py.last_char (x ++ d) = Py.last_char d.
Proof.
  intro Hd. induction x as [|a x IH]; [reflexivity|].
  simpl. rewrite IH.
  destruct (x ++ d) eqn:E; [|reflexivity].
  destruct x; simpl in E; [contradiction | discriminate].
Qed.

(** A non-empty string of digits ends in a digit. *)
Lemma all_digits_last (d : string) :
  all_digits d = true -> d <> "" ->
  exists c : ascii, Py.last_char d = Ok c /\ Py.is_digit c = true.
Proof.
  induction d as [|a d IH]; [intros _ Hd; contradiction|].
  simpl. intros Hall _. apply andb_true_iff in Hall. destruct Hall as [Ha Hd].
  destruct d as [|b d'].
  - exists a. split; [reflexivity | exact Ha].
  - apply IH; [exact Hd | discriminate].
Qed.

Lemma all_digits_drop_last (d : string) :
  all_digits d = true -> all_digits (Py.drop_last d) = true.
Proof.
  induction d as [|a d IH]; [reflexivity|].
  simpl. intro Hall. apply andb_true_iff in Hall. destruct Hall as [Ha Hd].
  destruct d as [|b d']; [reflexivity|].
  change (Py.is_digit a && all_digits (Py.drop_last (String b d')) = true).
  rewrite Ha. exact (IH Hd).
Qed.

Lemma drop_last_nonempty (d : string) :
  (2 <= String.length d)%nat -> Py.drop_last d <> "".
Proof.
  destruct d as [|a [|b d']]; simpl; [lia | lia | discriminate].
Qed.

(** A name whose octave part has two digits or more is not in
    [note_names] once its last character is removed. *)
Lemma long_octave_raises (prefix digits : string) :
  all_digits digits = true -> (2 <= String.length digits)%nat ->
  frequency (prefix ++ digits) = Raise ValueError.
Proof.
  intros Hall Hlen.
  assert (Hne : digits <> "") by (destruct digits; [simpl in Hlen; lia | discriminate]).
  apply frequency_not_two_part. intros (s & o & Hs & Ho & E).
  apply (f_equal Py.drop_last) in E.
  unfold note_name in E. rewrite drop_last_app_char in E.
  rewrite (drop_last_app _ _ Hne) in E.
  destruct (all_digits_last _ (all_digits_drop_last _ Hall)
              (drop_last_nonempty _ Hlen)) as (c & Hc & Hd).
  assert (Hl : Py.last_char (nth s note_names "") = Ok c).
  { rewrite <- E. rewrite last_char_app by (apply drop_last_nonempty; exact Hlen).
    exact Hc. }
  rewrite (note_names_last_not_digit s c Hs Hl) in Hd. discriminate.
Qed.

(** *** The row loop *)

(** When the first row that does not parse is [row], the loop stops
    there: the rows before it have been given a frequency, [row] and the
    rows after it are as they were. *)
Lemma frequency_loop_raise (before after : string_frame) (row : string_row) :
  Forall (fun r => two_part (Note r)) before ->
  ~ two_part (Note row) ->
  exists before' : string_frame,
    List.length before' = List.length before /\
    frequency_loop (before ++ row :: after)%list =
    ((before' ++ row :: after)%list, Some ValueError).
Proof.
  intros Hb Hrow. induction Hb as [|r before Hr Hb IH].
  - exists []. split; [reflexivity|]. cbn [app frequency_loop].
    rewrite (frequency_not_two_part _ Hrow). reflexivity.
  - destruct IH as (before' & Hlen & Hloop).
    destruct (two_part_frequency _ Hr) as [f Hf].
    exists (set_Frequency_Hz r (Some f) :: before'). split.
    + cbn [List.length]. rewrite Hlen. reflexivity.
    + cbn [app frequency_loop]. rewrite Hf, Hloop. reflexivity.
Qed.

(** C8: a note name that is not a letter class of [note_names] followed
    by an octave digit makes the frequency derivation raise (Python's
    [ValueError], the parse error of the notebook); the row loop of either
    loader stops at the first such row, which gets no frequency, no mass
    per unit length and no name, as do the rows after it. *)
Theorem malformed_note_halts (before after : string_frame) (row : string_row) :
  Forall (fun r => two_part (Note r)) before ->
  ~ two_part (Note row) ->
  frequency (Note row) = Raise ValueError /\
  exists before' : string_frame,
    List.length before' = List.length before /\
    load_guitar (before ++ row :: after)%list =
      ((before' ++ assign_scale (assign_tension (row :: after)))%list,
       Some ValueError) /\
    load_various (before ++ row :: after)%list =
      ((before' ++ assign_scale (assign_tension (row :: after)))%list,
       Some ValueError).
Proof.
  intros Hb Hrow. split; [exact (frequency_not_two_part _ Hrow)|].
  set (conv := fun l => assign_scale (assign_tension l)).
  assert (Hb' : Forall (fun r => two_part (Note r)) (conv before)).
  { unfold conv, assign_scale, assign_tension.
    rewrite map_map. apply Forall_map. exact Hb. }
  assert (Hsplit : conv (before ++ row :: after)%list
                   = (conv before ++ conv [row] ++ conv after)%list).
  { unfold conv, assign_scale, assign_tension.
    rewrite !map_map, map_app. reflexivity. }
  destruct (frequency_loop_raise (conv before) (conv after)
              (set_Scale_m (set_Tension_N row (Some (Tension_kg row * 9.81)))
                 (Some (Scale_cm row / 100))) Hb' Hrow)
    as (before' & Hlen & Hloop).
  exists before'. split.
  - rewrite Hlen. unfold conv, assign_scale, assign_tension.
    rewrite !length_map. reflexivity.
  - unfold load_guitar, load_various.
    fold (conv (before ++ row :: after)%list).
    rewrite Hsplit.
    change (conv [row] ++ conv after)%list with
      (set_Scale_m (set_Tension_N row (Some (Tension_kg row * 9.81)))
         (Some (Scale_cm row / 100)) :: conv after).
    rewrite Hloop. split; reflexivity.
Qed.

(** A name holding the character [#] is not of the two-part pattern. *)
Lemma hash_not_two_part (note : string) :
  contains "#" note = true -> ~ two_part note.
Proof.
  intros Hc (s & o & Hs & Ho & ->).
  rewrite (note_name_no_hash s o Hs Ho) in Hc. discriminate.
Qed.

Lemma malformed_note_halts_sharp :
  frequency "C#4" = Raise ValueError /\
  exists before' : string_frame,
    List.length before' = 0%nat /\
    load_guitar [csv_string None None None "C#4" 6 64.5] =
      ((before' ++ assign_scale (assign_tension
                      [csv_string None None None "C#4" 6 64.5]))%list,
       Some ValueError) /\
    load_various [csv_string None None None "C#4" 6 64.5] =
      ((before' ++ assign_scale (assign_tension
                      [csv_string None None None "C#4" 6 64.5]))%list,
       Some ValueError).
Proof.
  apply (malformed_note_halts [] [] (csv_string None None None "C#4" 6 64.5)).
  - constructor.
  - apply hash_not_two_part. reflexivity.
Defined.

(** C10: a note name has a frequency exactly when it is one of the
    twelve letter classes of [note_names] (a sharp spelled [s]) followed
    by one octave digit; a name holding [#], such as "C#4", and a name
    whose octave part has two digits or more, such as "A10", raise. *)
Theorem frequency_input_language :
  (forall note : string,
     (exists f : R, frequency note = Ok f) <-> two_part note)
  /\ (forall note : string,
        contains "#" note = true -> frequency note = Raise ValueError)
  /\ (forall prefix digits : string,
        all_digits digits = true -> (2 <= String.length digits)%nat ->
        frequency (prefix ++ digits) = Raise ValueError)
  /\ frequency "C#4" = Raise ValueError
  /\ frequency "A10" = Raise ValueError.
Proof.
  split; [|split; [|split; [|split]]].
  - intro note. split.
    + intros [f Hf]. exact (frequency_ok_two_part _ _ Hf).
    + exact (two_part_frequency note).
  - intros note Hc. apply frequency_not_two_part.
    apply hash_not_two_part. exact Hc.
  - exact long_octave_raises.
  - apply frequency_not_two_part. apply hash_not_two_part. reflexivity.
  - apply (long_octave_raises "A" "10"); [reflexivity | simpl; lia].
Qed.

Lemma frequency_input_language_A10 : frequency "A10" = Raise ValueError.
Proof.
  apply (proj1 (proj2 (proj2 frequency_input_language)) "A" "10").
  - reflexivity.
  - apply le_n.
Defined.

(** *** The fluid table *)


Lemma loc_assign_bulk_modulus (fluids : fluid_frame) (name : string) :
  loc (assign_bulk_modulus fluids) name =
  option_map
    (fun row => mkFluid (Density row) (Sound_speed row) (Phase row)
                  (Some (Density row * Sound_speed row ^ 2)))
    (loc fluids name).
Proof.
  induction fluids as [|[k row] rest IH]; [reflexivity|].
  cbn [assign_bulk_modulus map loc]. fold (assign_bulk_modulus rest).
  destruct (String.eqb k name); [reflexivity | exact IH].
Qed.

Lemma loc_loc_set_row (fluids : fluid_frame) (name : string) (rho c : R)
    (phase : string) :
  loc (loc_set_row fluids name rho c phase) name = Some (csv_fluid rho c phase).
Proof.
  induction fluids as [|[k row] rest IH]; cbn [loc_set_row loc].
  - rewrite String.eqb_refl. reflexivity.
  - destruct (String.eqb k name) eqn:E; cbn [loc]; rewrite E;
      [reflexivity | exact IH].
Qed.





(** C7, a density written after the column assignment: the record of
    density 1.2 and sound speed 343 whose density is then set to 2 keeps
    the bulk modulus 1.2 x 343^2, which is not 2 x 343^2. *)
Lemma bulk_modulus_stale :
  exists r : fluid,
    loc (set_density
           (assign_bulk_modulus [("Air", csv_fluid 1.2 343 "gas")]) "Air" 2)
        "Air" = Some r /\
    Density r = 2 /\ Sound_speed r = 343 /\
    Bulk_modulus r = Some (1.2 * 343 ^ 2) /\
    Bulk_modulus r <> Some (Density r * Sound_speed r ^ 2).
Proof.
  exists (mkFluid 2 343 "gas" (Some (1.2 * 343 ^ 2))).
  split; [reflexivity|]. cbn [Density Sound_speed Bulk_modulus].
  split; [reflexivity | split; [reflexivity | split; [reflexivity |]]].
  intros [= H]. lra.
Qed.

Lemma loc_set_density (fluids : fluid_frame) (name other : string) (v : R) :
  loc (set_density fluids name v) other =
  if String.eqb other name
  then option_map
         (fun row => mkFluid v (Sound_speed row) (Phase row) (Bulk_modulus row))
         (loc fluids other)
  else loc fluids other.
Proof.
  induction fluids as [|[k row] rest IH]; cbn [set_density map loc].
  - destruct (String.eqb other name); reflexivity.
  - fold (set_density rest name v).
    destruct (String.eqb_spec k name) as [->|Hk]; cbn [loc].
    + destruct (String.eqb_spec name other) as [<-|Hne].
      * rewrite String.eqb_refl. reflexivity.
      * exact IH.
    + destruct (String.eqb_spec k other) as [->|Hko].
      * destruct (String.eqb_spec other name) as [E|_];
          [contradiction | reflexivity].
      * exact IH.
Qed.

Lemma loc_set_sound_speed (fluids : fluid_frame) (name other : string)
    (v : R) :
  loc (set_sound_speed fluids name v) other =
  if String.eqb other name
  then option_map
         (fun row => mkFluid (Density row) v (Phase row) (Bulk_modulus row))
         (loc fluids other)
  else loc fluids other.
Proof.
  induction fluids as [|[k row] rest IH]; cbn [set_sound_speed map loc].
  - destruct (String.eqb other name); reflexivity.
  - fold (set_sound_speed rest name v).
    destruct (String.eqb_spec k name) as [->|Hk]; cbn [loc].
    + destruct (String.eqb_spec name other) as [<-|Hne].
      * rewrite String.eqb_refl. reflexivity.
      * exact IH.
    + destruct (String.eqb_spec k other) as [->|Hko].
      * destruct (String.eqb_spec other name) as [E|_];
          [contradiction | reflexivity].
      * exact IH.
Qed.

(** C7: the bulk modulus is a stored column.  The assignment gives the
    record of every name of the table density x sound_speed^2 of its
    density and sound speed of that moment; a density or a sound speed
    written afterwards changes that cell of that record only and leaves
    the stored bulk modulus as it was, so that it is stale; and the
    column assigned again gives the record density x sound_speed^2 of
    the values then in the table. *)
Theorem bulk_modulus_cached (fluids : fluid_frame) (name : string)
    (row : fluid) (v : R) :
  loc fluids name = Some row ->
  loc (assign_bulk_modulus fluids) name
    = Some (mkFluid (Density row) (Sound_speed row) (Phase row)
              (Some (Density row * Sound_speed row ^ 2)))
  /\ loc (set_density (assign_bulk_modulus fluids) name v) name
     = Some (mkFluid v (Sound_speed row) (Phase row)
               (Some (Density row * Sound_speed row ^ 2)))
  /\ loc (set_sound_speed (assign_bulk_modulus fluids) name v) name
     = Some (mkFluid (Density row) v (Phase row)
               (Some (Density row * Sound_speed row ^ 2)))
  /\ (forall other : string, other <> name ->
        loc (set_density (assign_bulk_modulus fluids) name v) other
        = loc (assign_bulk_modulus fluids) other /\
        loc (set_sound_speed (assign_bulk_modulus fluids) name v) other
        = loc (assign_bulk_modulus fluids) other)
  /\ loc (assign_bulk_modulus
            (set_density (assign_bulk_modulus fluids) name v)) name
     = Some (mkFluid v (Sound_speed row) (Phase row)
               (Some (v * Sound_speed row ^ 2)))
  /\ loc (assign_bulk_modulus
            (set_sound_speed (assign_bulk_modulus fluids) name v)) name
     = Some (mkFluid (Density row) v (Phase row)
               (Some (Density row * v ^ 2)))
  /\ List.length (assign_bulk_modulus fluids) = List.length fluids.
Proof.
  intro Hloc.
  assert (H1 : loc (assign_bulk_modulus fluids) name
               = Some (mkFluid (Density row) (Sound_speed row) (Phase row)
                         (Some (Density row * Sound_speed row ^ 2)))).
  { rewrite loc_assign_bulk_modulus, Hloc. reflexivity. }
  assert (H2 : loc (set_density (assign_bulk_modulus fluids) name v) name
               = Some (mkFluid v (Sound_speed row) (Phase row)
                         (Some (Density row * Sound_speed row ^ 2)))).
  { rewrite loc_set_density, String.eqb_refl, H1. reflexivity. }
  assert (H3 : loc (set_sound_speed (assign_bulk_modulus fluids) name v) name
               = Some (mkFluid (Density row) v (Phase row)
                         (Some (Density row * Sound_speed row ^ 2)))).
  { rewrite loc_set_sound_speed, String.eqb_refl, H1. reflexivity. }
  split; [exact H1 | split; [exact H2 | split; [exact H3 | split;
         [|split; [|split]]]]].
  - intros other Hne. rewrite loc_set_density, loc_set_sound_speed.
    destruct (String.eqb_spec other name) as [E|_]; [contradiction|].
    split; reflexivity.
  - rewrite loc_assign_bulk_modulus, H2. reflexivity.
  - rewrite loc_assign_bulk_modulus, H3. reflexivity.
  - unfold assign_bulk_modulus. apply length_map.
Qed.

Lemma bulk_modulus_cached_air :
  loc (assign_bulk_modulus [("Air", csv_fluid 1.2 343 "gas")]) "Air"
    = Some (mkFluid (Density (csv_fluid 1.2 343 "gas"))
              (Sound_speed (csv_fluid 1.2 343 "gas"))
              (Phase (csv_fluid 1.2 343 "gas"))
              (Some (Density (csv_fluid 1.2 343 "gas") *
                     Sound_speed (csv_fluid 1.2 343 "gas") ^ 2)))
  /\ loc (set_density
            (assign_bulk_modulus [("Air", csv_fluid 1.2 343 "gas")]) "Air" 2)
         "Air"
     = Some (mkFluid 2 (Sound_speed (csv_fluid 1.2 343 "gas"))
               (Phase (csv_fluid 1.2 343 "gas"))
               (Some (Density (csv_fluid 1.2 343 "gas") *
                      Sound_speed (csv_fluid 1.2 343 "gas") ^ 2))).
Proof.
  destruct (bulk_modulus_cached [("Air", csv_fluid 1.2 343 "gas")] "Air"
              (csv_fluid 1.2 343 "gas") 2 eq_refl) as (H1 & H2 & _).
  split; [exact H1 | exact H2].
Defined.

(** *** The string tables *)




Lemma conversions_two_part (csv : string_frame) :
  Forall (fun r => two_part (Note r)) csv ->
  Forall (fun r => two_part (Note r)) (assign_scale (assign_tension csv)).
Proof.
  intro H. unfold assign_scale, assign_tension. rewrite map_map.
  apply Forall_map. exact H.
Qed.







Lemma mass_per_length_wave_speed (tension scale freq : R) :
  mass_per_length tension scale freq = tension / wave_speed freq scale ^ 2.
Proof. unfold mass_per_length, wave_speed. f_equal. ring. Qed.

(** The frequency of E2, the note of scenario 4. *)
Lemma frequency_E2 :
  frequency "E2" = Ok (440 * Rpower 2 (2 - 4 + (4 - 9) / 12)).
Proof. exact (frequency_note_name 4 2 ltac:(lia) ltac:(lia)). Qed.

(** Runs a loader on a one-row table whose note is E2. *)
Ltac run_load_E2 :=
  unfold load_guitar, load_various, assign_scale, assign_tension;
  cbn [map frequency_loop Note set_Scale_m set_Tension_N csv_string];
  rewrite frequency_E2; reflexivity.

(** Two positive numbers are ordered as their powers are. *)
Lemma pow_lt_reg (a b : R) (n : nat) : 0 <= a -> 0 <= b -> a ^ n < b ^ n -> a < b.
Proof.
  intros Ha Hb H. destruct (Rlt_le_dec a b) as [Hlt|Hle]; [exact Hlt|].
  exfalso. apply (Rlt_irrefl (a ^ n)).
  apply (Rlt_le_trans _ (b ^ n)); [exact H|].
  apply pow_incr. split; assumption.
Qed.

(** [2 ** (-29/12)], twelve times multiplied, is [2 ** (-29)]. *)
Lemma E2_ratio_pow12 : Rpower 2 (2 - 4 + (4 - 9) / 12) ^ 12 = / 2 ^ 29.
Proof.
  rewrite <- Rpower_pow by apply exp_pos.
  rewrite Rpower_mult.
  replace ((2 - 4 + (4 - 9) / 12) * INR 12) with (- INR 29)
    by (simpl; field).
  rewrite Rpower_Ropp, Rpower_pow by lra. reflexivity.
Qed.

Lemma E2_frequency_bounds :
  82.40688 < 440 * Rpower 2 (2 - 4 + (4 - 9) / 12) < 82.40690.
Proof.
  pose proof E2_ratio_pow12 as H12.
  assert (Hpos : 0 < Rpower 2 (2 - 4 + (4 - 9) / 12)) by apply exp_pos.
  set (x := Rpower 2 (2 - 4 + (4 - 9) / 12)) in *.
  assert (Hlo : 82.40688 / 440 < x).
  { apply (pow_lt_reg _ _ 12); [lra | lra |]. rewrite H12. lra. }
  assert (Hhi : x < 82.40690 / 440).
  { apply (pow_lt_reg _ _ 12); [lra | lra |]. rewrite H12. lra. }
  lra.
Qed.

(** Two lists related through a function on each side. *)
Lemma Forall2_map_both {A B C D : Type} (Rel1 : B -> C -> Prop)
    (Rel2 : A -> D -> Prop) (g : A -> B) (h : C -> D) (l : list A)
    (out : list C) :
  (forall a c, Rel1 (g a) c -> Rel2 a (h c)) ->
  Forall2 Rel1 (map g l) out -> Forall2 Rel2 l (map h out).
Proof.
  intro Hstep. revert out. induction l as [|a l IH]; intros out H;
    inversion H; subst; cbn [map]; constructor.
  - apply Hstep. assumption.
  - apply IH. assumption.
Qed.

(** The loop on rows whose notes all parse: it completes, and gives
    each row, in place, the frequency of its note. *)
Lemma frequency_loop_rows (strings : string_frame) :
  Forall (fun r => two_part (Note r)) strings ->
  exists out : string_frame,
    frequency_loop strings = (out, None) /\
    Forall2 (fun r r' => exists f : R,
               frequency (Note r) = Ok f /\
               r' = set_Frequency_Hz r (Some f))
            strings out.
Proof.
  intro H. induction H as [|r rest Hr Hrest IH].
  - exists []. split; [reflexivity | constructor].
  - destruct IH as (out & Hloop & Hall).
    destruct (two_part_frequency _ Hr) as [f Hf].
    exists (set_Frequency_Hz r (Some f) :: out). split.
    + cbn [frequency_loop]. rewrite Hf, Hloop. reflexivity.
    + constructor; [|exact Hall]. exists f. split; [exact Hf | reflexivity].
Qed.

(** A completed load, row by row: the table a loader leaves has one row
    for each row of the file, in the order of the file, holding the six
    columns of the file, the two conversions, the frequency of the note
    and the mass per unit length computed from them. *)
Lemma load_completed (csv : string_frame) :
  Forall (fun r => two_part (Note r)) csv ->
  exists out_g out_v : string_frame,
    load_guitar csv = (out_g, None) /\
    load_various csv = (out_v, None) /\
    Forall2 (fun r0 r => exists f : R,
               frequency (Note r0) = Ok f /\
               r = mkString (Type_ r0) (Instrument r0) (String_type r0)
                     (Note r0) (Tension_kg r0) (Scale_cm r0)
                     (Some (Tension_kg r0 * 9.81)) (Some (Scale_cm r0 / 100))
                     (Some f)
                     (Some (mass_per_length (Tension_kg r0 * 9.81)
                              (Scale_cm r0 / 100) f))
                     (name_guitar r0))
            csv out_g /\
    Forall2 (fun r0 r => exists f : R,
               frequency (Note r0) = Ok f /\
               r = mkString (Type_ r0) (Instrument r0) (String_type r0)
                     (Note r0) (Tension_kg r0) (Scale_cm r0)
                     (Some (Tension_kg r0 * 9.81)) (Some (Scale_cm r0 / 100))
                     (Some f)
                     (Some (mass_per_length (Tension_kg r0 * 9.81)
                              (Scale_cm r0 / 100) f))
                     (name_various r0))
            csv out_v.
Proof.
  intro H.
  destruct (frequency_loop_rows _ (conversions_two_part csv H))
    as (strings & Hloop & Hrows).
  exists (assign_name_guitar (assign_mass strings)),
         (assign_name_various (assign_mass strings)).
  unfold load_guitar, load_various. rewrite Hloop.
  split; [reflexivity | split; [reflexivity |]].
  unfold assign_scale, assign_tension in Hrows. rewrite map_map in Hrows.
  unfold assign_name_guitar, assign_name_various, assign_mass.
  rewrite !map_map.
  split; refine (Forall2_map_both _ _ _ _ _ _ _ Hrows);
    intros r0 r (f & Hf & ->); exists f; (split; [exact Hf | reflexivity]).
Qed.

(** C2: in the table either loader leaves for a file whose notes all
    parse, the row of every row of the file holds, as its mass per unit
    length, its tension in newtons (kilograms-force x 9.81) over the
    square of the wave speed [2 f L], [f] the frequency of its note and
    [L] its scale length in metres (centimetres / 100); the record of
    scenario 4 (6 kgf, 64.5 cm, E2) gets, from either loader, 58.86 N, a
    frequency within 0.0001 of 82.4069 Hz, a wave speed within 0.01 of
    106.30 m/s and a mass per unit length within 0.000001 of
    0.005208 kg/m. *)
Theorem mass_per_length_formula :
  (forall csv : string_frame,
     Forall (fun r => two_part (Note r)) csv ->
     exists out_g out_v : string_frame,
       load_guitar csv = (out_g, None) /\
       load_various csv = (out_v, None) /\
       Forall2 (fun r0 r => exists tau L f : R,
                  csv_columns r = csv_columns r0 /\
                  tau = Tension_kg r0 * 9.81 /\ L = Scale_cm r0 / 100 /\
                  frequency (Note r0) = Ok f /\
                  Tension_N r = Some tau /\ Scale_m r = Some L /\
                  Frequency_Hz r = Some f /\
                  Mass_per_length r = Some (tau / wave_speed f L ^ 2))
               csv out_g /\
       Forall2 (fun r0 r => exists tau L f : R,
                  csv_columns r = csv_columns r0 /\
                  tau = Tension_kg r0 * 9.81 /\ L = Scale_cm r0 / 100 /\
                  frequency (Note r0) = Ok f /\
                  Tension_N r = Some tau /\ Scale_m r = Some L /\
                  Frequency_Hz r = Some f /\
                  Mass_per_length r = Some (tau / wave_speed f L ^ 2))
               csv out_v)
  /\ (exists (rg rv : string_row) (tau f m : R),
        load_guitar [csv_string (Some "Classical") (Some "Guitar")
                       (Some "Normal") "E2" 6 64.5] = ([rg], None) /\
        load_various [csv_string (Some "Classical") (Some "Guitar")
                        (Some "Normal") "E2" 6 64.5] = ([rv], None) /\
        Tension_N rg = Some tau /\ Tension_N rv = Some tau /\ tau = 58.86 /\
        Scale_m rg = Some 0.645 /\ Scale_m rv = Some 0.645 /\
        Frequency_Hz rg = Some f /\ Frequency_Hz rv = Some f /\
        Rabs (f - 82.4069) < 0.0001 /\
        Rabs (wave_speed f 0.645 - 106.30) < 0.01 /\
        Mass_per_length rg = Some m /\ Mass_per_length rv = Some m /\
        m = tau / wave_speed f 0.645 ^ 2 /\
        Rabs (m - 0.005208) < 0.000001).
Proof.
  split.
  - intros csv H.
    destruct (load_completed csv H) as (out_g & out_v & Hg & Hv & Fg & Fv).
    exists out_g, out_v.
    split; [exact Hg | split; [exact Hv |]].
    split; [refine (Forall2_impl _ _ Fg) | refine (Forall2_impl _ _ Fv)];
      intros r0 r (f & Hf & ->);
      exists (Tension_kg r0 * 9.81), (Scale_cm r0 / 100), f;
      cbn [csv_columns Type_ Instrument String_type Note Tension_kg Scale_cm
           Tension_N Scale_m Frequency_Hz Mass_per_length];
      rewrite mass_per_length_wave_speed; repeat split; exact Hf.
  - pose proof E2_frequency_bounds as Hb.
    set (f := 440 * Rpower 2 (2 - 4 + (4 - 9) / 12)) in *.
    exists (mkString (Some "Classical") (Some "Guitar") (Some "Normal") "E2"
              6 64.5 (Some (6 * 9.81)) (Some (64.5 / 100)) (Some f)
              (Some (mass_per_length (6 * 9.81) (64.5 / 100) f))
              (Some "Classical Normal")).
    exists (mkString (Some "Classical") (Some "Guitar") (Some "Normal") "E2"
              6 64.5 (Some (6 * 9.81)) (Some (64.5 / 100)) (Some f)
              (Some (mass_per_length (6 * 9.81) (64.5 / 100) f))
              (Some "Classical Guitar")).
    exists (6 * 9.81), f, (mass_per_length (6 * 9.81) (64.5 / 100) f).
    assert (Hc : 106.30487 < wave_speed f 0.645 < 106.30491)
      by (unfold wave_speed; lra).
    assert (Hs : Some (64.5 / 100) = Some 0.645) by (f_equal; lra).
    cbn [Tension_N Scale_m Frequency_Hz Mass_per_length].
    split; [run_load_E2|]. split; [run_load_E2|].
    split; [reflexivity|]. split; [reflexivity|]. split; [lra|].
    split; [exact Hs|]. split; [exact Hs|].
    split; [reflexivity|]. split; [reflexivity|].
    split; [apply Rabs_def1; lra|]. split; [apply Rabs_def1; lra|].
    split; [reflexivity|]. split; [reflexivity|]. split.
    + rewrite mass_per_length_wave_speed. f_equal. f_equal. f_equal. lra.
    + rewrite mass_per_length_wave_speed.
      replace (wave_speed f (64.5 / 100)) with (wave_speed f 0.645)
        by (f_equal; lra).
      set (c := wave_speed f 0.645) in *.
      assert (Hc2 : 106.30487 ^ 2 < c ^ 2 < 106.30491 ^ 2) by nra.
      set (m := 6 * 9.81 / c ^ 2).
      assert (Hm : m * c ^ 2 = 6 * 9.81) by (unfold m; field; nra).
      apply Rabs_def1; nra.
Qed.

Lemma mass_per_length_formula_E2 :
  exists out_g out_v : string_frame,
    load_guitar [csv_string None None None "E2" 6 64.5] = (out_g, None) /\
    load_various [csv_string None None None "E2" 6 64.5] = (out_v, None) /\
    Forall2 (fun r0 r => exists tau L f : R,
               csv_columns r = csv_columns r0 /\
               tau = Tension_kg r0 * 9.81 /\ L = Scale_cm r0 / 100 /\
               frequency (Note r0) = Ok f /\
               Tension_N r = Some tau /\ Scale_m r = Some L /\
               Frequency_Hz r = Some f /\
               Mass_per_length r = Some (tau / wave_speed f L ^ 2))
            [csv_string None None None "E2" 6 64.5] out_g /\
    Forall2 (fun r0 r => exists tau L f : R,
               csv_columns r = csv_columns r0 /\
               tau = Tension_kg r0 * 9.81 /\ L = Scale_cm r0 / 100 /\
               frequency (Note r0) = Ok f /\
               Tension_N r = Some tau /\ Scale_m r = Some L /\
               Frequency_Hz r = Some f /\
               Mass_per_length r = Some (tau / wave_speed f L ^ 2))
            [csv_string None None None "E2" 6 64.5] out_v.
Proof.
  apply (proj1 mass_per_length_formula).
  constructor; [|constructor].
  exists 4%nat, 2%nat. split; [lia | split; [lia | reflexivity]].
Defined.

(** *** Display names *)






(** *** Contour grids *)

Lemma nth_error_combine_Some {B C : Type} (l1 : list B) (l2 : list C)
    (i : nat) (b : B) (c : C) :
  nth_error l1 i = Some b -> nth_error l2 i = Some c ->
  nth_error (combine l1 l2) i = Some (b, c).
Proof.
  revert l2 i. induction l1 as [|x l1 IH]; intros l2 i H1 H2.
  - destruct i; discriminate.
  - destruct l2 as [|y l2]; [destruct i; discriminate|].
    destruct i as [|i]; cbn [nth_error combine] in *.
    + injection H1 as ->. injection H2 as ->. reflexivity.
    + exact (IH l2 i H1 H2).
Qed.

Lemma nth_error_map2 {B : Type} (f : B -> B -> B) (l1 l2 : list B) (i : nat)
    (a b : B) :
  nth_error l1 i = Some a -> nth_error l2 i = Some b ->
  nth_error (map2 f l1 l2) i = Some (f a b).
Proof.
  intros H1 H2. unfold map2.
  rewrite nth_error_map, (nth_error_combine_Some _ _ _ _ _ H1 H2).
  reflexivity.
Qed.

(** Cell [i][j] of an array computed cell by cell from the two arrays of
    [meshgrid]. *)
Lemma meshgrid_cell {A : Type} (f : A -> A) (g : A -> A -> A)
    (mu tau : list A) (i j : nat) (t m : A) :
  nth_error tau i = Some t -> nth_error mu j = Some m ->
  cell (grid_map f (grid_map2 g (snd (meshgrid mu tau)) (fst (meshgrid mu tau))))
       i j = Some (f (g t m)).
Proof.
  intros Ht Hm. unfold cell, grid_map, grid_map2, meshgrid. cbn [fst snd].
  rewrite nth_error_map.
  rewrite (nth_error_map2 (map2 g) _ _ i (map (fun _ => t) mu) mu).
  - cbn [option_map]. rewrite nth_error_map.
    rewrite (nth_error_map2 g _ _ j t m); [reflexivity | | exact Hm].
    rewrite nth_error_map, Hm. reflexivity.
  - rewrite nth_error_map, Ht. reflexivity.
  - rewrite nth_error_map, Ht. reflexivity.
Qed.

(** The statements of the contour cell never raise, and every cell of
    the two arrays is the cell formula at its coordinates. *)
Lemma contours_cells {A : Type} `{Arith A} (mu tau : list A) :
  exists z c : grid,
    contours mu tau = Ok (z, c) /\
    forall (i j : nat) (t m : A),
      nth_error tau i = Some t -> nth_error mu j = Some m ->
      cell z i j = Some (z_cell t m) /\ cell c i j = Some (c_cell t m).
Proof.
  do 2 eexists. split; [reflexivity|].
  intros i j t m Ht Hm. split.
  - exact (meshgrid_cell sqrt mul mu tau i j t m Ht Hm).
  - exact (meshgrid_cell sqrt div mu tau i j t m Ht Hm).
Qed.

(** The binary64 square root of a negative number is NaN. *)
Lemma sqrt_negative_nan (x : float) :
  (x <? 0)%float = true -> is_nan (PrimFloat.sqrt x) = true.
Proof.
  intro Hx. unfold is_nan.
  rewrite FloatAxioms.eqb_spec, FloatAxioms.sqrt_spec.
  rewrite FloatAxioms.ltb_spec in Hx.
  change (Prim2SF 0) with (S754_zero false) in Hx.
  destruct (Prim2SF x) as [s|s| |s m e]; try discriminate Hx;
    destruct s; try discriminate Hx; reflexivity.
Qed.

(** Dividing a positive binary64 number by zero gives +infinity, and so
    does the square root of the quotient. *)
Lemma sqrt_div_zero (t : float) :
  (0 <? t)%float = true -> PrimFloat.sqrt (t / 0) = infinity.
Proof.
  intro Ht. rewrite FloatAxioms.ltb_spec in Ht.
  change (Prim2SF 0) with (S754_zero false) in Ht.
  apply Prim2SF_inj.
  rewrite FloatAxioms.sqrt_spec, FloatAxioms.div_spec.
  change (Prim2SF 0) with (S754_zero false).
  change (Prim2SF infinity) with (S754_infinity false).
  destruct (Prim2SF t) as [s|s| |s m e]; try discriminate Ht;
    destruct s; try discriminate Ht; reflexivity.
Qed.

(** C5, a negative and a zero entry in the first range: the statements
    complete, the cells of the negative entry are NaN, and the zero entry
    gives impedance 0 and wave speed +infinity. *)
Lemma contours_negative_and_zero :
  contours [(-1)%float; 0%float] [10%float] =
    Ok ([[nan; 0%float]], [[nan; infinity]]) /\
  is_nan nan = true /\
  is_nan (z_cell 10%float (-1)%float) = true /\
  is_nan (c_cell 10%float (-1)%float) = true.
Proof. repeat split. Qed.

(** Dividing a positive binary64 number by the negative zero gives
    -infinity, whose square root is NaN. *)
Lemma sqrt_div_neg_zero (t : float) :
  (0 <? t)%float = true -> is_nan (PrimFloat.sqrt (t / neg_zero)) = true.
Proof.
  intro Ht. rewrite FloatAxioms.ltb_spec in Ht.
  change (Prim2SF 0) with (S754_zero false) in Ht.
  unfold is_nan.
  rewrite FloatAxioms.eqb_spec, FloatAxioms.sqrt_spec, FloatAxioms.div_spec.
  change (Prim2SF neg_zero) with (S754_zero true).
  destruct (Prim2SF t) as [s|s| |s m e]; try discriminate Ht;
    destruct s; try discriminate Ht; reflexivity.
Qed.

(** C5: the contour statements make no check of their inputs and raise
    nothing: for any two ranges of binary64 numbers they return the two
    arrays, whose cells are sqrt(tau x mu) and sqrt(tau / mu); a cell with
    a negative product or quotient is NaN; under a positive entry of the
    second range, an entry +0 of the first gives the wave speed +infinity
    and an entry -0 gives NaN. *)
Theorem contours_no_domain_check :
  (forall mu tau : list float,
     exists z c : grid,
       contours mu tau = Ok (z, c) /\
       forall (i j : nat) (t m : float),
         nth_error tau i = Some t -> nth_error mu j = Some m ->
         cell z i j = Some (z_cell t m) /\ cell c i j = Some (c_cell t m))
  /\ (forall t m : float,
        (t * m <? 0)%float = true -> is_nan (z_cell t m) = true)
  /\ (forall t m : float,
        (t / m <? 0)%float = true -> is_nan (c_cell t m) = true)
  /\ (forall t : float,
        (0 <? t)%float = true -> c_cell t 0%float = infinity)
  /\ (forall t : float,
        (0 <? t)%float = true -> is_nan (c_cell t neg_zero) = true).
Proof.
  split; [exact contours_cells | split; [|split; [|split]]].
  - intros t m H. exact (sqrt_negative_nan _ H).
  - intros t m H. exact (sqrt_negative_nan _ H).
  - intros t H. exact (sqrt_div_zero t H).
  - intros t H. exact (sqrt_div_neg_zero t H).
Qed.

Lemma contours_no_domain_check_nan :
  is_nan (c_cell 10%float (-1)%float) = true /\
  c_cell 10%float 0%float = infinity /\
  is_nan (c_cell 10%float neg_zero) = true.
Proof.
  destruct contours_no_domain_check as (_ & _ & Hneg & Hzero & Hnzero).
  split; [apply (Hneg 10%float (-1)%float); reflexivity | split].
  - apply (Hzero 10%float). reflexivity.
  - apply (Hnzero 10%float). reflexivity.
Defined.







(** ** Further results *)

(** *** Intervals between notes *)

Lemma Rpower_2_succ (x : R) : Rpower 2 (x + 1) = 2 * Rpower 2 x.
Proof. rewrite Rpower_plus, Rpower_1 by lra. ring. Qed.

Lemma Rpower_2_semitone (x : R) :
  Rpower 2 (x + / 12) = Rpower 2 (/ 12) * Rpower 2 x.
Proof. rewrite Rpower_plus. ring. Qed.

(** X1: raising a note by an octave doubles its frequency; the next
    letter class of [note_names] in the same octave, and C of the next
    octave after B, are one equal-tempered semitone (a factor 2^(1/12))
    higher. *)
Theorem frequency_intervals :
  (forall s o : nat, (s < 12)%nat -> (S o < 10)%nat ->
     exists f : R,
       frequency (note_name s o) = Ok f /\
       frequency (note_name s (S o)) = Ok (2 * f))
  /\ (forall s o : nat, (S s < 12)%nat -> (o < 10)%nat ->
        exists f : R,
          frequency (note_name s o) = Ok f /\
          frequency (note_name (S s) o) = Ok (Rpower 2 (/ 12) * f))
  /\ (forall o : nat, (S o < 10)%nat ->
        exists f : R,
          frequency (note_name 11 o) = Ok f /\
          frequency (note_name 0 (S o)) = Ok (Rpower 2 (/ 12) * f)).
Proof.
  split; [|split].
  - intros s o Hs Ho. eexists. split.
    + apply frequency_note_name; lia.
    + rewrite frequency_note_name by lia. f_equal.
      rewrite Nat2Z.inj_succ, succ_IZR.
      replace (IZR (Z.of_nat o) + 1 - 4 + (IZR (Z.of_nat s) - 9) / 12)
        with (IZR (Z.of_nat o) - 4 + (IZR (Z.of_nat s) - 9) / 12 + 1)
        by ring.
      rewrite Rpower_2_succ. ring.
  - intros s o Hs Ho. eexists. split.
    + apply frequency_note_name; lia.
    + rewrite frequency_note_name by lia. f_equal.
      rewrite Nat2Z.inj_succ, succ_IZR.
      replace (IZR (Z.of_nat o) - 4 + (IZR (Z.of_nat s) + 1 - 9) / 12)
        with (IZR (Z.of_nat o) - 4 + (IZR (Z.of_nat s) - 9) / 12 + / 12)
        by field.
      rewrite Rpower_2_semitone. ring.
  - intros o Ho. eexists. split.
    + apply frequency_note_name; lia.
    + rewrite frequency_note_name by lia. f_equal.
      rewrite Nat2Z.inj_succ, succ_IZR.
      change (Z.of_nat 11) with 11%Z. change (Z.of_nat 0) with 0%Z.
      replace (IZR (Z.of_nat o) + 1 - 4 + (0 - 9) / 12)
        with (IZR (Z.of_nat o) - 4 + (11 - 9) / 12 + / 12)
        by field.
      rewrite Rpower_2_semitone. ring.
Qed.

Lemma frequency_intervals_E2_E3 :
  exists f : R,
    frequency (note_name 4 2) = Ok f /\
    frequency (note_name 4 3) = Ok (2 * f).
Proof.
  apply (proj1 frequency_intervals 4%nat 2%nat); lia.
Defined.

(** *** Log-spaced ranges *)

Lemma nth_error_seq_lt (a n i : nat) :
  (i < n)%nat -> nth_error (seq a n) i = Some (a + i)%nat.
Proof.
  intro Hi. rewrite (nth_error_nth' _ 0%nat) by (rewrite length_seq; exact Hi).
  rewrite seq_nth by exact Hi. reflexivity.
Qed.

Lemma length_logspace (start stop : R) (num : nat) :
  List.length (logspace start stop num) = num.
Proof. unfold logspace, linspace. rewrite !length_map. apply length_seq. Qed.

(** Sample [i] of a log-spaced range. *)
Lemma nth_error_logspace (start stop : R) (num i : nat) :
  nth_error (logspace start stop num) i =
  if (i <? num)%nat
  then Some (Rpower 10 (INR i * ((stop - start) / INR (num - 1)) + start))
  else None.
Proof.
  unfold logspace, linspace. rewrite !nth_error_map.
  destruct (Nat.ltb_spec i num) as [Hi|Hi].
  - rewrite (nth_error_seq_lt 0 num i Hi). reflexivity.
  - assert (H : nth_error (seq 0 num) i = None)
      by (apply nth_error_None; rewrite length_seq; exact Hi).
    rewrite H. reflexivity.
Qed.

Lemma Rpower_10_lt (x y : R) : x < y -> Rpower 10 x < Rpower 10 y.
Proof. intro H. apply Rpower_lt; lra. Qed.

Lemma logspace_positive (start stop : R) (num : nat) :
  Forall (fun x => 0 < x) (logspace start stop num).
Proof.
  unfold logspace. apply Forall_map. apply Forall_forall.
  intros x _. apply exp_pos.
Qed.

(** X2: [np.logspace(start, stop, num)] has [num] samples, all positive;
    it begins at 10^start and, with two samples or more, ends at 10^stop;
    when start < stop the samples increase strictly. *)
Theorem logspace_range (start stop : R) (num : nat) :
  List.length (logspace start stop num) = num
  /\ Forall (fun x => 0 < x) (logspace start stop num)
  /\ ((1 <= num)%nat ->
      nth_error (logspace start stop num) 0 = Some (Rpower 10 start))
  /\ ((2 <= num)%nat ->
      nth_error (logspace start stop num) (num - 1) = Some (Rpower 10 stop))
  /\ (start < stop ->
      forall (i j : nat) (x y : R),
        (i < j)%nat ->
        nth_error (logspace start stop num) i = Some x ->
        nth_error (logspace start stop num) j = Some y ->
        x < y).
Proof.
  split; [apply length_logspace | split; [|split; [|split]]].
  - apply logspace_positive.
  - intro Hn. rewrite nth_error_logspace.
    destruct (Nat.ltb_spec 0 num) as [_|H]; [|lia].
    f_equal. f_equal. simpl INR. ring.
  - intro Hn. rewrite nth_error_logspace.
    destruct (Nat.ltb_spec (num - 1) num) as [_|H]; [|lia].
    f_equal. f_equal.
    assert (Hpos : INR (num - 1) <> 0).
    { apply not_0_INR. lia. }
    field. exact Hpos.
  - intros Hlt i j x y Hij Hx Hy.
    rewrite nth_error_logspace in Hx, Hy.
    destruct (Nat.ltb_spec j num) as [Hj|Hj]; [|discriminate].
    destruct (Nat.ltb_spec i num) as [Hi|Hi]; [|lia].
    injection Hx as <-. injection Hy as <-.
    apply Rpower_10_lt.
    assert (Hstep : 0 < (stop - start) / INR (num - 1)).
    { apply Rdiv_lt_0_compat; [lra |]. apply lt_0_INR. lia. }
    apply lt_INR in Hij.
    apply Rplus_lt_compat_r. apply Rmult_lt_compat_r; assumption.
Qed.

Lemma logspace_range_mu :
  nth_error (logspace (-3.7) (-0.8) 100) (100 - 1) = Some (Rpower 10 (-0.8)).
Proof.
  apply (proj1 (proj2 (proj2 (proj2 (logspace_range (-3.7) (-0.8) 100))))).
  repeat constructor.
Defined.

(** *** Shape and cells of the contour grids *)

Lemma map2_const_l {B : Type} (g : B -> B -> B) (t : B) (l : list B) :
  map2 g (map (fun _ => t) l) l = map (g t) l.
Proof.
  unfold map2. induction l as [|m l IH]; [reflexivity|].
  cbn [map combine fst snd]. rewrite IH. reflexivity.
Qed.

(** An array computed cell by cell from the arrays of [meshgrid] holds,
    in row [i] and column [j], the value at [tau[i]] and [mu[j]]. *)
Lemma meshgrid_map {A : Type} (f : A -> A) (g : A -> A -> A)
    (mu tau : list A) :
  grid_map f (grid_map2 g (snd (meshgrid mu tau)) (fst (meshgrid mu tau)))
  = map (fun t => map (fun m => f (g t m)) mu) tau.
Proof.
  unfold grid_map, grid_map2, meshgrid. cbn [fst snd].
  induction tau as [|t tau IH]; [reflexivity|].
  unfold map2 in *. cbn [map combine fst snd].
  rewrite IH. f_equal.
  fold (map2 g (map (fun _ => t) mu) mu). rewrite map2_const_l.
  apply map_map.
Qed.

Lemma contours_explicit {A : Type} `{Arith A} (mu tau : list A) :
  contours mu tau =
  Ok (map (fun t => map (fun m => z_cell t m) mu) tau,
      map (fun t => map (fun m => c_cell t m) mu) tau).
Proof.
  unfold contours.
  change (let (mu_grid, tau_grid) := meshgrid mu tau in
          Ok (grid_map sqrt (grid_map2 mul tau_grid mu_grid),
              grid_map sqrt (grid_map2 div tau_grid mu_grid)))
    with (Ok (grid_map sqrt (grid_map2 mul (snd (meshgrid mu tau))
                               (fst (meshgrid mu tau))),
              grid_map sqrt (grid_map2 div (snd (meshgrid mu tau))
                               (fst (meshgrid mu tau))))).
  rewrite !meshgrid_map. reflexivity.
Qed.

Lemma cell_map_None {A : Type} (h : A -> A -> A) (mu tau : list A) (i j : nat) :
  cell (map (fun t => map (fun m => h t m) mu) tau) i j = None <->
  (List.length tau <= i)%nat \/ (List.length mu <= j)%nat.
Proof.
  unfold cell. rewrite nth_error_map.
  destruct (nth_error tau i) as [t|] eqn:Ht; cbn [option_map].
  - rewrite nth_error_map.
    assert (Hi : (i < List.length tau)%nat)
      by (apply nth_error_Some; rewrite Ht; discriminate).
    destruct (nth_error mu j) as [m|] eqn:Hm; cbn [option_map].
    + assert (Hj : (j < List.length mu)%nat)
        by (apply nth_error_Some; rewrite Hm; discriminate).
      split; [discriminate | lia].
    + apply nth_error_None in Hm. split; [intros _; right; exact Hm | reflexivity].
  - apply nth_error_None in Ht. split; [intros _; left; exact Ht | reflexivity].
Qed.

(** X3: the two arrays have one row for each entry of the second range
    and one column for each entry of the first, whatever the number
    type; indexing a cell gives nothing exactly outside that rectangle. *)
Theorem contours_shape {A : Type} `{Arith A} (mu tau : list A) :
  exists z c : grid,
    contours mu tau = Ok (z, c) /\
    List.length z = List.length tau /\ List.length c = List.length tau /\
    Forall (fun row => List.length row = List.length mu) z /\
    Forall (fun row => List.length row = List.length mu) c /\
    forall i j : nat,
      (cell z i j = None <->
       (List.length tau <= i)%nat \/ (List.length mu <= j)%nat) /\
      (cell c i j = None <->
       (List.length tau <= i)%nat \/ (List.length mu <= j)%nat).
Proof.
  do 2 eexists. split; [apply contours_explicit|].
  rewrite !length_map.
  split; [reflexivity | split; [reflexivity | split; [|split]]].
  - apply Forall_map, Forall_forall. intros t _. apply length_map.
  - apply Forall_map, Forall_forall. intros t _. apply length_map.
  - intros i j. split; apply cell_map_None.
Qed.

Lemma cells_positive (tau mu : R) :
  0 < tau -> 0 < mu -> 0 < z_cell tau mu /\ 0 < c_cell tau mu.
Proof.
  intros Ht Hm. unfold z_cell, c_cell. cbn [sqrt mul div R_arith].
  split; apply sqrt_lt_R0;
    [apply Rmult_lt_0_compat | apply Rdiv_lt_0_compat]; assumption.
Qed.

(** X4: over the reals, for a positive pair the impedance cell times
    the wave-speed cell is the second coordinate (tension, bulk modulus)
    and their quotient is the first (mass per length, density): the two
    contour values determine the point of the chart. *)
Theorem contours_determine_point (tau mu : R) :
  0 < tau -> 0 < mu ->
  z_cell tau mu * c_cell tau mu = tau /\
  z_cell tau mu / c_cell tau mu = mu /\
  0 < z_cell tau mu /\ 0 < c_cell tau mu.
Proof.
  intros Ht Hm.
  split; [|split; [|exact (cells_positive tau mu Ht Hm)]];
    unfold z_cell, c_cell; cbn [sqrt mul div R_arith].
  - assert (Hq : 0 < tau / mu) by (apply Rdiv_lt_0_compat; assumption).
    assert (Hp : 0 < tau * mu) by (apply Rmult_lt_0_compat; assumption).
    rewrite <- sqrt_mult by lra.
    replace (tau * mu * (tau / mu)) with (tau ^ 2) by (field; lra).
    apply sqrt_pow2. lra.
  - assert (Hq : 0 < tau / mu) by (apply Rdiv_lt_0_compat; assumption).
    assert (Hp : 0 < tau * mu) by (apply Rmult_lt_0_compat; assumption).
    rewrite <- sqrt_div by lra.
    replace (tau * mu / (tau / mu)) with (mu ^ 2) by (field; lra).
    apply sqrt_pow2. lra.
Qed.

Lemma contours_determine_point_air :
  z_cell 141178.8 1.2 * c_cell 141178.8 1.2 = 141178.8 /\
  z_cell 141178.8 1.2 / c_cell 141178.8 1.2 = 1.2 /\
  0 < z_cell 141178.8 1.2 /\ 0 < c_cell 141178.8 1.2.
Proof. apply (contours_determine_point 141178.8 1.2); lra. Defined.

Lemma ln_sqrt_half (x : R) : 0 < x -> ln (R_sqrt.sqrt x) = ln x / 2.
Proof.
  intro Hx. rewrite <- Rpower_sqrt by exact Hx.
  unfold Rpower. rewrite ln_exp. field.
Qed.

(** X5: in the logarithms the contours are straight lines: for a
    positive pair, log10 of the impedance cell is the half sum of the
    log10 of the coordinates, and log10 of the wave-speed cell their half
    difference. *)
Theorem contours_log_linear (tau mu : R) :
  0 < tau -> 0 < mu ->
  log10 (z_cell tau mu) = (log10 tau + log10 mu) / 2 /\
  log10 (c_cell tau mu) = (log10 tau - log10 mu) / 2.
Proof.
  intros Ht Hm. unfold z_cell, c_cell, log10. cbn [sqrt mul div R_arith].
  assert (Hl : ln 10 <> 0).
  { rewrite <- ln_1. intro E. apply ln_inv in E; lra. }
  split.
  - rewrite ln_sqrt_half by (apply Rmult_lt_0_compat; assumption).
    rewrite ln_mult by assumption. field. exact Hl.
  - rewrite ln_sqrt_half by (apply Rdiv_lt_0_compat; assumption).
    change (tau / mu) with (tau * / mu).
    rewrite ln_mult, ln_Rinv
      by (try apply Rinv_0_lt_compat; assumption).
    field. exact Hl.
Qed.

Lemma contours_log_linear_air :
  log10 (z_cell 141178.8 1.2) = (log10 141178.8 + log10 1.2) / 2 /\
  log10 (c_cell 141178.8 1.2) = (log10 141178.8 - log10 1.2) / 2.
Proof. apply (contours_log_linear 141178.8 1.2); lra. Defined.

(** X6: on the log-spaced ranges the notebook builds, every cell of the
    impedance and wave-speed arrays is a positive real, so the [log10]
    taken of them for the contours is of positive numbers only. *)
Theorem contours_logspace_positive
    (start_mu stop_mu start_tau stop_tau : R) (num_mu num_tau : nat) :
  exists z c : list (list R),
    contours (logspace start_mu stop_mu num_mu)
             (logspace start_tau stop_tau num_tau) = Ok (z, c) /\
    List.length z = num_tau /\ List.length c = num_tau /\
    Forall (fun row => List.length row = num_mu /\
                       Forall (fun x => 0 < x) row) z /\
    Forall (fun row => List.length row = num_mu /\
                       Forall (fun x => 0 < x) row) c.
Proof.
  do 2 eexists. split; [apply contours_explicit|].
  rewrite !length_map, length_logspace.
  split; [reflexivity | split; [reflexivity |]].
  pose proof (logspace_positive start_mu stop_mu num_mu) as Hmu.
  pose proof (logspace_positive start_tau stop_tau num_tau) as Htau.
  rewrite Forall_forall in Hmu, Htau.
  split; apply Forall_map, Forall_forall; intros t Ht;
    (split; [rewrite length_map; apply length_logspace |]);
    apply Forall_map, Forall_forall; intros m Hm;
    apply (cells_positive t m (Htau t Ht) (Hmu m Hm)).
Qed.

(** *** Highlighted contours and the ideal-gas curves *)

Lemma loc_assign_bulk_modulus_Some (fluids : fluid_frame) (name : string)
    (r : fluid) :
  loc (assign_bulk_modulus fluids) name = Some r ->
  Bulk_modulus r = Some (Density r * Sound_speed r ^ 2).
Proof.
  rewrite loc_assign_bulk_modulus.
  destruct (loc fluids name) as [row|]; cbn [option_map]; [|discriminate].
  intros [= <-]. reflexivity.
Qed.

(** A fluid of positive density and sound speed sits, on the chart of
    bulk modulus against density, on the wave-speed contour of its sound
    speed and on the impedance contour of density x sound speed. *)
Lemma fluid_on_contours (rho c : R) :
  0 < rho -> 0 < c ->
  c_cell (rho * c ^ 2) rho = c /\ z_cell (rho * c ^ 2) rho = rho * c.
Proof.
  intros Hr Hc. unfold c_cell, z_cell. cbn [sqrt mul div R_arith]. split.
  - replace (rho * c ^ 2 / rho) with (c ^ 2) by (field; lra).
    apply sqrt_pow2. lra.
  - replace (rho * c ^ 2 * rho) with ((rho * c) ^ 2) by ring.
    apply sqrt_pow2. apply Rlt_le. apply Rmult_lt_0_compat; assumption.
Qed.

Lemma log10_div (hi lo : R) :
  0 < lo -> 0 < hi -> log10 lo + log10 (hi / lo) = log10 hi.
Proof.
  intros Hlo Hhi. unfold log10.
  assert (Hl : ln 10 <> 0).
  { rewrite <- ln_1. intro E. apply ln_inv in E; lra. }
  change (hi / lo) with (hi * / lo).
  rewrite ln_mult, ln_Rinv by (try apply Rinv_0_lt_compat; assumption).
  field. exact Hl.
Qed.

(** X7: the dashed contours pass through the two highlighted fluids.
    For two records of positive density and sound speed in a table of
    distinct names with its bulk-modulus column, the impedance levels [start] and
    [start + size = end] are log10 of the impedance cell at the first and
    at the second record, and likewise the wave-speed levels. *)
Theorem highlighted_contours_through_points
    (fluids : fluid_frame) (air water : string) (ra rw : fluid) :
  NoDup (map fst fluids) ->
  loc (assign_bulk_modulus fluids) air = Some ra ->
  loc (assign_bulk_modulus fluids) water = Some rw ->
  0 < Density ra -> 0 < Sound_speed ra ->
  0 < Density rw -> 0 < Sound_speed rw ->
  exists Ba Bw : R,
    Bulk_modulus ra = Some Ba /\ Bulk_modulus rw = Some Bw /\
    (let lv := highlight_levels (impedance ra) (impedance rw) in
     level_start lv = log10 (z_cell Ba (Density ra)) /\
     level_start lv + level_size lv = level_end lv /\
     level_end lv = log10 (z_cell Bw (Density rw))) /\
    (let lv := highlight_levels (Sound_speed ra) (Sound_speed rw) in
     level_start lv = log10 (c_cell Ba (Density ra)) /\
     level_start lv + level_size lv = level_end lv /\
     level_end lv = log10 (c_cell Bw (Density rw))).
Proof.
  intros _ Ha Hw Hra Hca Hrw Hcw.
  exists (Density ra * Sound_speed ra ^ 2), (Density rw * Sound_speed rw ^ 2).
  split; [exact (loc_assign_bulk_modulus_Some _ _ _ Ha)|].
  split; [exact (loc_assign_bulk_modulus_Some _ _ _ Hw)|].
  destruct (fluid_on_contours _ _ Hra Hca) as [Hc1 Hz1].
  destruct (fluid_on_contours _ _ Hrw Hcw) as [Hc2 Hz2].
  rewrite Hc1, Hz1, Hc2, Hz2.
  unfold highlight_levels, impedance. cbn [level_start level_end level_size].
  split; (split; [reflexivity | split; [|reflexivity]]); apply log10_div;
    try assumption; apply Rmult_lt_0_compat; assumption.
Qed.

Lemma highlighted_contours_air_water :
  exists Ba Bw : R,
    Bulk_modulus (mkFluid 1.2 343 "gas" (Some (1.2 * 343 ^ 2))) = Some Ba /\
    Bulk_modulus (mkFluid 998 1481 "liquid" (Some (998 * 1481 ^ 2))) = Some Bw /\
    (let lv := highlight_levels
                 (impedance (mkFluid 1.2 343 "gas" (Some (1.2 * 343 ^ 2))))
                 (impedance (mkFluid 998 1481 "liquid" (Some (998 * 1481 ^ 2))))
     in
     level_start lv = log10 (z_cell Ba 1.2) /\
     level_start lv + level_size lv = level_end lv /\
     level_end lv = log10 (z_cell Bw 998)) /\
    (let lv := highlight_levels 343 1481 in
     level_start lv = log10 (c_cell Ba 1.2) /\
     level_start lv + level_size lv = level_end lv /\
     level_end lv = log10 (c_cell Bw 998)).
Proof.
  apply (highlighted_contours_through_points
           [("Air", csv_fluid 1.2 343 "gas");
            ("Water", csv_fluid 998 1481 "liquid")] "Air" "Water"
           (mkFluid 1.2 343 "gas" (Some (1.2 * 343 ^ 2)))
           (mkFluid 998 1481 "liquid" (Some (998 * 1481 ^ 2))));
    try reflexivity; cbn [Density Sound_speed]; try lra.
  repeat constructor; cbn [In map fst]; intros H;
    repeat (destruct H as [H|H]; [discriminate|]); exact H.
Defined.

(** X8: on the chart of bulk modulus against density an ideal gas lies
    on the horizontal line B = gamma x P: density times the square of
    [sqrt(gamma*P/rho)] is gamma x P at every positive density; the speed
    falls as the density grows, and the monatomic curve lies above the
    diatomic one. *)
Theorem ideal_gas_curves (rho : R) :
  0 < rho ->
  (forall gamma : R, 0 < gamma ->
     rho * ideal_gas_speed gamma rho ^ 2 = gamma * P /\
     c_cell (gamma * P) rho = ideal_gas_speed gamma rho)
  /\ (forall gamma rho' : R, 0 < gamma -> rho < rho' ->
        ideal_gas_speed gamma rho' < ideal_gas_speed gamma rho)
  /\ ideal_gas_speed gamma_diatomic rho < ideal_gas_speed gamma_monatomic rho.
Proof.
  intro Hr. assert (HP : 0 < P) by (unfold P; lra).
  split; [|split].
  - intros gamma Hg. split; [|reflexivity].
    unfold ideal_gas_speed. rewrite pow2_sqrt.
    + field. lra.
    + apply Rlt_le. apply Rdiv_lt_0_compat; [|exact Hr].
      apply Rmult_lt_0_compat; assumption.
  - intros gamma rho' Hg Hlt. unfold ideal_gas_speed.
    assert (HgP : 0 < gamma * P) by (apply Rmult_lt_0_compat; assumption).
    apply sqrt_lt_1_alt. split.
    + apply Rlt_le. apply Rdiv_lt_0_compat; lra.
    + unfold Rdiv. apply Rmult_lt_compat_l; [exact HgP|].
      apply Rinv_lt_contravar; [apply Rmult_lt_0_compat; lra | exact Hlt].
  - unfold ideal_gas_speed, gamma_diatomic, gamma_monatomic.
    apply sqrt_lt_1_alt. split.
    + apply Rlt_le. apply Rdiv_lt_0_compat; lra.
    + unfold Rdiv. apply Rmult_lt_compat_r; [apply Rinv_0_lt_compat; exact Hr|].
      lra.
Qed.

Lemma ideal_gas_curves_air :
  (forall gamma : R, 0 < gamma ->
     1.2 * ideal_gas_speed gamma 1.2 ^ 2 = gamma * P /\
     c_cell (gamma * P) 1.2 = ideal_gas_speed gamma 1.2)
  /\ (forall gamma rho' : R, 0 < gamma -> 1.2 < rho' ->
        ideal_gas_speed gamma rho' < ideal_gas_speed gamma 1.2)
  /\ ideal_gas_speed gamma_diatomic 1.2 < ideal_gas_speed gamma_monatomic 1.2.
Proof. apply (ideal_gas_curves 1.2). lra. Defined.

(** *** Rows of the fluid table *)

Lemma loc_None (fluids : fluid_frame) (name : string) :
  loc fluids name = None <-> ~ In name (map fst fluids).
Proof.
  induction fluids as [|[k row] rest IH]; cbn [loc map fst In].
  - split; [intros _ [] | reflexivity].
  - destruct (String.eqb_spec k name) as [->|Hne].
    + split; [discriminate | intro H; exfalso; apply H; left; reflexivity].
    + rewrite IH. split.
      * intros H [E|Hin]; [exact (Hne E) | exact (H Hin)].
      * intros H Hin. apply H. right. exact Hin.
Qed.

Lemma loc_loc_set_row_other (fluids : fluid_frame) (name other : string)
    (rho c : R) (phase : string) :
  other <> name ->
  loc (loc_set_row fluids name rho c phase) other = loc fluids other.
Proof.
  intro Hne. induction fluids as [|[k row] rest IH]; cbn [loc_set_row loc].
  - destruct (String.eqb_spec name other) as [E|_]; [|reflexivity].
    exfalso. apply Hne. symmetry. exact E.
  - destruct (String.eqb_spec k name) as [->|Hk]; cbn [loc].
    + destruct (String.eqb_spec name other) as [E|_]; [|reflexivity].
      exfalso. apply Hne. symmetry. exact E.
    + rewrite IH. reflexivity.
Qed.

Lemma length_loc_set_row (fluids : fluid_frame) (name : string) (rho c : R)
    (phase : string) :
  List.length (loc_set_row fluids name rho c phase) =
  match loc fluids name with
  | Some _ => List.length fluids
  | None => S (List.length fluids)
  end.
Proof.
  induction fluids as [|[k row] rest IH]; cbn [loc_set_row loc List.length].
  - reflexivity.
  - destruct (String.eqb k name); cbn [List.length]; [reflexivity|].
    rewrite IH. destruct (loc rest name); reflexivity.
Qed.

Lemma loc_set_row_index (fluids : fluid_frame) (name other : string)
    (rho c : R) (phase : string) :
  In other (map fst (loc_set_row fluids name rho c phase)) <->
  other = name \/ In other (map fst fluids).
Proof.
  induction fluids as [|[k row] rest IH]; cbn [loc_set_row map fst In].
  - split; [intros [E|[]]; left; symmetry; exact E
           | intros [E|[]]; left; symmetry; exact E].
  - destruct (String.eqb_spec k name) as [->|Hk]; cbn [map fst In].
    + split; [intros [E|H]; [left; symmetry; exact E | right; right; exact H]
             | intros [E|[E|H]];
               [left; symmetry; exact E | left; exact E | right; exact H]].
    + rewrite IH. split.
      * intros [E|[E|H]];
          [right; left; exact E | left; exact E | right; right; exact H].
      * intros [E|[E|H]];
          [right; left; exact E | left; exact E | right; right; exact H].
Qed.

Lemma loc_set_row_NoDup (fluids : fluid_frame) (name : string) (rho c : R)
    (phase : string) :
  NoDup (map fst fluids) ->
  NoDup (map fst (loc_set_row fluids name rho c phase)).
Proof.
  induction fluids as [|[k row] rest IH]; cbn [loc_set_row map fst]; intro Hnd.
  - constructor; [intros [] | constructor].
  - inversion Hnd as [|? ? Hnot Hrest]; subst.
    destruct (String.eqb_spec k name) as [->|Hk]; cbn [map fst].
    + constructor; assumption.
    + constructor; [|exact (IH Hrest)].
      rewrite loc_set_row_index. intros [E|H]; [exact (Hk E) | exact (Hnot H)].
Qed.

(** X9: adding a fluid with [fluids.loc[name] = [...]] to a table whose
    index has no duplicate, and looking a name up: the added name gives
    the new row, every other name gives what it gave before, the table
    grows by one row exactly when the name was not in the index, the
    index still has no duplicate, and a lookup finds nothing exactly for
    the names that are not in the index. *)
Theorem loc_set_row_lookup (fluids : fluid_frame) (name : string) (rho c : R)
    (phase : string) :
  NoDup (map fst fluids) ->
  loc (loc_set_row fluids name rho c phase) name = Some (csv_fluid rho c phase)
  /\ (forall other : string, other <> name ->
        loc (loc_set_row fluids name rho c phase) other = loc fluids other)
  /\ List.length (loc_set_row fluids name rho c phase) =
     (if existsb (String.eqb name) (map fst fluids)
      then List.length fluids else S (List.length fluids))
  /\ NoDup (map fst (loc_set_row fluids name rho c phase))
  /\ (forall other : string,
        loc fluids other = None <-> ~ In other (map fst fluids)).
Proof.
  intro Hnd.
  split; [apply loc_loc_set_row | split; [|split; [|split]]].
  - intros other Hne. apply loc_loc_set_row_other. exact Hne.
  - rewrite length_loc_set_row.
    destruct (existsb (String.eqb name) (map fst fluids)) eqn:E.
    + apply existsb_exists in E. destruct E as (k & Hin & Hk).
      apply String.eqb_eq in Hk. subst k.
      destruct (loc fluids name) eqn:Hl; [reflexivity|].
      apply loc_None in Hl. contradiction.
    + destruct (loc fluids name) eqn:Hl; [|reflexivity].
      assert (Hin : In name (map fst fluids)).
      { destruct (in_dec string_dec name (map fst fluids)) as [H|H];
          [exact H|]. apply loc_None in H. congruence. }
      assert (Ht : existsb (String.eqb name) (map fst fluids) = true).
      { apply existsb_exists. exists name. split; [exact Hin|].
        apply String.eqb_refl. }
      congruence.
  - apply loc_set_row_NoDup. exact Hnd.
  - intro other. apply loc_None.
Qed.

Lemma loc_set_row_lookup_dodecafluoropentane :
  loc (loc_set_row [("Air", csv_fluid 1.2 343 "gas")]
         "Dodecafluoropentane" 10.31 99.72 "gas") "Dodecafluoropentane"
  = Some (csv_fluid 10.31 99.72 "gas")
  /\ (forall other : string, other <> "Dodecafluoropentane" ->
        loc (loc_set_row [("Air", csv_fluid 1.2 343 "gas")]
               "Dodecafluoropentane" 10.31 99.72 "gas") other
        = loc [("Air", csv_fluid 1.2 343 "gas")] other)
  /\ List.length (loc_set_row [("Air", csv_fluid 1.2 343 "gas")]
                    "Dodecafluoropentane" 10.31 99.72 "gas") =
     (if existsb (String.eqb "Dodecafluoropentane")
           (map fst [("Air", csv_fluid 1.2 343 "gas")])
      then List.length [("Air", csv_fluid 1.2 343 "gas")]
      else S (List.length [("Air", csv_fluid 1.2 343 "gas")]))
  /\ NoDup (map fst (loc_set_row [("Air", csv_fluid 1.2 343 "gas")]
                       "Dodecafluoropentane" 10.31 99.72 "gas"))
  /\ (forall other : string,
        loc [("Air", csv_fluid 1.2 343 "gas")] other = None <->
        ~ In other (map fst [("Air", csv_fluid 1.2 343 "gas")])).
Proof.
  apply (loc_set_row_lookup [("Air", csv_fluid 1.2 343 "gas")]
           "Dodecafluoropentane" 10.31 99.72 "gas").
  constructor; [intros [] | constructor].
Defined.

(** *** Traces of equal notes *)

Lemma unique_In (values : list string) (v : string) :
  In v (unique values) <-> In v values.
Proof.
  induction values as [|w rest IH]; cbn [unique In]; [reflexivity|].
  rewrite filter_In, IH. split.
  - intros [E | [Hin _]]; [left; exact E | right; exact Hin].
  - intros [E | Hin]; [left; exact E|].
    destruct (String.eqb_spec v w) as [->|Hne];
      [left; reflexivity | right; split; [exact Hin | reflexivity]].
Qed.

Lemma unique_NoDup (values : list string) : NoDup (unique values).
Proof.
  induction values as [|w rest IH]; cbn [unique]; constructor.
  - rewrite filter_In. intros [_ H]. rewrite String.eqb_refl in H. discriminate.
  - apply NoDup_filter. exact IH.
Qed.

Lemma note_set_cons (r : string_row) (strings : string_frame) (note : string) :
  note_set (r :: strings) note =
  if String.eqb (Note r) note then r :: note_set strings note
  else note_set strings note.
Proof. reflexivity. Qed.

Lemma note_set_other (r : string_row) (strings : string_frame)
    (notes : list string) :
  ~ In (Note r) notes ->
  map (note_set (r :: strings)) notes = map (note_set strings) notes.
Proof.
  intro Hn. apply map_ext_in. intros k Hk. rewrite note_set_cons.
  destruct (String.eqb_spec (Note r) k) as [E|_]; [|reflexivity].
  exfalso. apply Hn. rewrite E. exact Hk.
Qed.

Lemma concat_note_set_nil (notes : list string) :
  concat (map (note_set []) notes) = [].
Proof. induction notes as [|k notes IH]; [reflexivity | exact IH]. Qed.

(** The rows of a table, picked note by note from a duplicate-free list
    of notes that holds every note of the table, are the rows of the
    table. *)
Lemma note_sets_Permutation (notes : list string) (strings : string_frame) :
  NoDup notes ->
  Forall (fun r => In (Note r) notes) strings ->
  Permutation (concat (map (note_set strings) notes)) strings.
Proof.
  intros Hnd Hall. induction Hall as [|r strings Hr Hall IH].
  - rewrite concat_note_set_nil. constructor.
  - destruct (in_split _ _ Hr) as (ks1 & ks2 & E). subst notes.
    pose proof (NoDup_remove_2 _ _ _ Hnd) as Hnot.
    assert (H1 : ~ In (Note r) ks1)
      by (intro H; apply Hnot; apply in_or_app; left; exact H).
    assert (H2 : ~ In (Note r) ks2)
      by (intro H; apply Hnot; apply in_or_app; right; exact H).
    rewrite map_app in *. cbn [map] in *. rewrite concat_app in *.
    cbn [concat] in *.
    rewrite (note_set_other r strings ks1 H1).
    rewrite (note_set_other r strings ks2 H2).
    rewrite note_set_cons, String.eqb_refl.
    cbn [app]. apply Permutation_sym.
    apply (Permutation_trans
             (l' := r :: (concat (map (note_set strings) ks1) ++
                          note_set strings (Note r) ++
                          concat (map (note_set strings) ks2))%list)).
    + constructor. apply Permutation_sym. exact IH.
    + apply Permutation_middle.
Qed.

(** X10: the traces joining equal notes partition the table: one trace
    for each distinct note, none of them empty, each holding rows of its
    note only, and together all the rows of the table, each once. *)
Theorem note_sets_partition (strings : string_frame) :
  NoDup (map fst (note_sets strings))
  /\ Forall (fun trace => snd trace <> [] /\
                          Forall (fun r => Note r = fst trace) (snd trace))
            (note_sets strings)
  /\ Permutation (concat (map snd (note_sets strings))) strings.
Proof.
  unfold note_sets. rewrite !map_map. cbn [fst snd]. rewrite map_id.
  split; [apply unique_NoDup | split].
  - apply Forall_map, Forall_forall. intros note Hin. cbn [fst snd]. split.
    + apply unique_In, in_map_iff in Hin. destruct Hin as (r & E & Hr).
      intro Hnil.
      assert (Hin : In r (note_set strings note)).
      { unfold note_set. apply filter_In. split; [exact Hr|].
        rewrite E. apply String.eqb_refl. }
      rewrite Hnil in Hin. exact Hin.
    + unfold note_set. apply Forall_forall. intros r Hr.
      apply filter_In in Hr. destruct Hr as [_ Hr].
      apply String.eqb_eq. exact Hr.
  - apply note_sets_Permutation; [apply unique_NoDup|].
    apply Forall_forall. intros r Hr. apply unique_In.
    apply in_map. exact Hr.
Qed.

(** *** Rows of a loaded string table *)

Lemma frequency_positive (note : string) (f : R) :
  frequency note = Ok f -> 0 < f.
Proof.
  intro Hf. destruct (frequency_ok_two_part _ _ Hf) as (s & o & Hs & Ho & ->).
  rewrite (frequency_note_name s o Hs Ho) in Hf. injection Hf as <-.
  apply Rmult_lt_0_compat; [lra | apply exp_pos].
Qed.

(** A row of positive tension, scale length and frequency, at the
    values a loader derives: tension and mass per unit length are
    positive and the wave-speed cell is the positive speed [2 f L]. *)
Lemma derived_on_contour (tension_kg scale_cm f : R) :
  0 < tension_kg -> 0 < scale_cm -> 0 < f ->
  0 < tension_kg * 9.81 /\
  0 < mass_per_length (tension_kg * 9.81) (scale_cm / 100) f /\
  0 < wave_speed f (scale_cm / 100) /\
  c_cell (tension_kg * 9.81)
         (mass_per_length (tension_kg * 9.81) (scale_cm / 100) f)
  = wave_speed f (scale_cm / 100).
Proof.
  intros Ht Hs Hf.
  assert (Htau : 0 < tension_kg * 9.81) by lra.
  assert (Hc : 0 < wave_speed f (scale_cm / 100)).
  { unfold wave_speed. apply Rmult_lt_0_compat; [lra|lra]. }
  rewrite mass_per_length_wave_speed.
  split; [exact Htau | split; [|split; [exact Hc|]]].
  - apply Rdiv_lt_0_compat; [exact Htau | apply pow_lt; exact Hc].
  - unfold c_cell. cbn [sqrt div R_arith].
    replace (tension_kg * 9.81 /
             (tension_kg * 9.81 / wave_speed f (scale_cm / 100) ^ 2))
      with (wave_speed f (scale_cm / 100) ^ 2) by (field; split; lra).
    apply sqrt_pow2. lra.
Qed.

Lemma Forall2_nth_error {A B : Type} (Rel : A -> B -> Prop) (l : list A)
    (l' : list B) (i : nat) (a : A) :
  Forall2 Rel l l' -> nth_error l i = Some a ->
  exists b : B, nth_error l' i = Some b /\ Rel a b.
Proof.
  intro H. revert i. induction H as [|x y l l' Hxy Hrest IH]; intros i Hi.
  - destruct i; discriminate.
  - destruct i as [|i]; cbn [nth_error] in *.
    + injection Hi as ->. exists y. split; [reflexivity | exact Hxy].
    + exact (IH i Hi).
Qed.

(** X11: for a file whose notes all parse, either loader leaves one row
    for each row of the file, in order, and the row of a file row of
    positive tension and scale length holds the tension kgf x 9.81, a
    positive mass per unit length and the positive frequency of its note,
    and sits on the wave-speed contour of [2 x frequency x scale]: the
    wave-speed cell at its tension and mass per length is that speed. *)
Theorem loaded_row_on_wave_speed_contour (csv : string_frame) :
  Forall (fun r => two_part (Note r)) csv ->
  exists out_g out_v : string_frame,
    load_guitar csv = (out_g, None) /\
    load_various csv = (out_v, None) /\
    Forall2 (fun r0 r =>
               0 < Tension_kg r0 -> 0 < Scale_cm r0 ->
               exists tau mu f : R,
                 tau = Tension_kg r0 * 9.81 /\
                 frequency (Note r0) = Ok f /\
                 Tension_N r = Some tau /\ Mass_per_length r = Some mu /\
                 Frequency_Hz r = Some f /\
                 0 < f /\ 0 < tau /\ 0 < mu /\
                 0 < wave_speed f (Scale_cm r0 / 100) /\
                 c_cell tau mu = wave_speed f (Scale_cm r0 / 100))
            csv out_g /\
    Forall2 (fun r0 r =>
               0 < Tension_kg r0 -> 0 < Scale_cm r0 ->
               exists tau mu f : R,
                 tau = Tension_kg r0 * 9.81 /\
                 frequency (Note r0) = Ok f /\
                 Tension_N r = Some tau /\ Mass_per_length r = Some mu /\
                 Frequency_Hz r = Some f /\
                 0 < f /\ 0 < tau /\ 0 < mu /\
                 0 < wave_speed f (Scale_cm r0 / 100) /\
                 c_cell tau mu = wave_speed f (Scale_cm r0 / 100))
            csv out_v.
Proof.
  intro H.
  destruct (load_completed csv H) as (out_g & out_v & Hg & Hv & Fg & Fv).
  exists out_g, out_v. split; [exact Hg | split; [exact Hv |]].
  split; [refine (Forall2_impl _ _ Fg) | refine (Forall2_impl _ _ Fv)];
    intros r0 r (f & Hf & ->) Ht Hs;
    pose proof (frequency_positive _ _ Hf) as Hfpos;
    destruct (derived_on_contour _ _ _ Ht Hs Hfpos) as (H1 & H2 & H3 & H4);
    exists (Tension_kg r0 * 9.81),
           (mass_per_length (Tension_kg r0 * 9.81) (Scale_cm r0 / 100) f), f;
    cbn [Tension_N Mass_per_length Frequency_Hz]; repeat split; assumption.
Qed.

Lemma loaded_row_on_wave_speed_contour_E2 :
  exists out_g out_v : string_frame,
    load_guitar [csv_string None None None "E2" 6 64.5] = (out_g, None) /\
    load_various [csv_string None None None "E2" 6 64.5] = (out_v, None) /\
    Forall2 (fun r0 r =>
               0 < Tension_kg r0 -> 0 < Scale_cm r0 ->
               exists tau mu f : R,
                 tau = Tension_kg r0 * 9.81 /\
                 frequency (Note r0) = Ok f /\
                 Tension_N r = Some tau /\ Mass_per_length r = Some mu /\
                 Frequency_Hz r = Some f /\
                 0 < f /\ 0 < tau /\ 0 < mu /\
                 0 < wave_speed f (Scale_cm r0 / 100) /\
                 c_cell tau mu = wave_speed f (Scale_cm r0 / 100))
            [csv_string None None None "E2" 6 64.5] out_g /\
    Forall2 (fun r0 r =>
               0 < Tension_kg r0 -> 0 < Scale_cm r0 ->
               exists tau mu f : R,
                 tau = Tension_kg r0 * 9.81 /\
                 frequency (Note r0) = Ok f /\
                 Tension_N r = Some tau /\ Mass_per_length r = Some mu /\
                 Frequency_Hz r = Some f /\
                 0 < f /\ 0 < tau /\ 0 < mu /\
                 0 < wave_speed f (Scale_cm r0 / 100) /\
                 c_cell tau mu = wave_speed f (Scale_cm r0 / 100))
            [csv_string None None None "E2" 6 64.5] out_v.
Proof.
  apply (loaded_row_on_wave_speed_contour
           [csv_string None None None "E2" 6 64.5]).
  constructor; [|constructor].
  exists 4%nat, 2%nat. split; [lia | split; [lia | reflexivity]].
Defined.

(** X12: two rows of a guitar file whose notes all parse, with the same
    note and the same positive scale length and both of positive tension:
    the loaded table holds, at their two positions, their tensions
    kgf x 9.81 and positive masses per unit length, and both rows lie on
    the same wave-speed contour, the one of [2 f L], whatever their
    tensions. *)
Theorem same_note_same_wave_speed (csv : string_frame) (i j : nat)
    (a b : string_row) :
  Forall (fun r => two_part (Note r)) csv ->
  nth_error csv i = Some a -> nth_error csv j = Some b ->
  Note a = Note b -> Scale_cm a = Scale_cm b ->
  0 < Scale_cm a -> 0 < Tension_kg a -> 0 < Tension_kg b ->
  exists (out : string_frame) (r1 r2 : string_row)
         (mu1 mu2 f : R),
    load_guitar csv = (out, None) /\
    nth_error out i = Some r1 /\ nth_error out j = Some r2 /\
    frequency (Note a) = Ok f /\
    Tension_N r1 = Some (Tension_kg a * 9.81) /\
    Tension_N r2 = Some (Tension_kg b * 9.81) /\
    Mass_per_length r1 = Some mu1 /\ Mass_per_length r2 = Some mu2 /\
    0 < mu1 /\ 0 < mu2 /\
    0 < wave_speed f (Scale_cm a / 100) /\
    c_cell (Tension_kg a * 9.81) mu1 = wave_speed f (Scale_cm a / 100) /\
    c_cell (Tension_kg b * 9.81) mu2 = wave_speed f (Scale_cm a / 100).
Proof.
  intros H Ha Hb Hnote Hscale Hs Hta Htb.
  destruct (load_completed csv H) as (out_g & out_v & Hg & _ & Fg & _).
  destruct (Forall2_nth_error _ _ _ _ _ Fg Ha) as (r1 & Hr1 & f1 & Hf1 & ->).
  destruct (Forall2_nth_error _ _ _ _ _ Fg Hb) as (r2 & Hr2 & f2 & Hf2 & ->).
  assert (Ef : f2 = f1) by (rewrite Hnote in Hf1; congruence).
  subst f2.
  pose proof (frequency_positive _ _ Hf1) as Hfpos.
  destruct (derived_on_contour _ _ _ Hta Hs Hfpos) as (_ & Hm1 & Hc & Hc1).
  assert (Hsb : 0 < Scale_cm b) by (rewrite <- Hscale; exact Hs).
  destruct (derived_on_contour _ _ _ Htb Hsb Hfpos) as (_ & Hm2 & _ & Hc2).
  rewrite <- Hscale in Hm2, Hc2.
  exists out_g. do 2 eexists.
  exists (mass_per_length (Tension_kg a * 9.81) (Scale_cm a / 100) f1),
         (mass_per_length (Tension_kg b * 9.81) (Scale_cm a / 100) f1), f1.
  split; [exact Hg|]. split; [exact Hr1|]. split; [exact Hr2|].
  cbn [Tension_N Mass_per_length]. rewrite <- Hscale.
  repeat split; assumption.
Qed.

Lemma same_note_same_wave_speed_E2 :
  exists (out : string_frame) (r1 r2 : string_row) (mu1 mu2 f : R),
    load_guitar [csv_string None None None "E2" 6 64.5;
                 csv_string None None None "E2" 7 64.5] = (out, None) /\
    nth_error out 0 = Some r1 /\ nth_error out 1 = Some r2 /\
    frequency "E2" = Ok f /\
    Tension_N r1 = Some (6 * 9.81) /\
    Tension_N r2 = Some (7 * 9.81) /\
    Mass_per_length r1 = Some mu1 /\ Mass_per_length r2 = Some mu2 /\
    0 < mu1 /\ 0 < mu2 /\
    0 < wave_speed f (64.5 / 100) /\
    c_cell (6 * 9.81) mu1 = wave_speed f (64.5 / 100) /\
    c_cell (7 * 9.81) mu2 = wave_speed f (64.5 / 100).
Proof.
  apply (same_note_same_wave_speed
           [csv_string None None None "E2" 6 64.5;
            csv_string None None None "E2" 7 64.5] 0 1
           (csv_string None None None "E2" 6 64.5)
           (csv_string None None None "E2" 7 64.5)).
  - repeat constructor;
      exists 4%nat, 2%nat; (split; [lia | split; [lia | reflexivity]]).
  - reflexivity.
  - reflexivity.
  - reflexivity.
  - reflexivity.
  - cbn [Scale_cm csv_string]. lra.
  - cbn [Tension_kg csv_string]. lra.
  - cbn [Tension_kg csv_string]. lra.
Defined.

Lemma frequency_loop_columns (strings : string_frame) :
  map csv_columns (fst (frequency_loop strings)) = map csv_columns strings.
Proof.
  induction strings as [|r rest IH]; [reflexivity|].
  cbn [frequency_loop]. destruct (frequency (Note r)) as [f|e];
    [|reflexivity].
  destruct (frequency_loop rest) as [rest' e']. cbn [fst map] in *.
  rewrite IH. reflexivity.
Qed.

(** X13: a loader never drops, adds or reorders a row and never changes
    a cell of the six columns read from the file, whether the run
    completes or raises. *)
Theorem load_keeps_csv_columns (csv : string_frame) :
  map csv_columns (fst (load_guitar csv)) = map csv_columns csv /\
  map csv_columns (fst (load_various csv)) = map csv_columns csv.
Proof.
  pose proof (frequency_loop_columns (assign_scale (assign_tension csv))) as H.
  assert (H0 : map csv_columns (assign_scale (assign_tension csv))
               = map csv_columns csv).
  { unfold assign_scale, assign_tension. rewrite !map_map. reflexivity. }
  rewrite H0 in H. clear H0.
  unfold load_guitar, load_various.
  destruct (frequency_loop (assign_scale (assign_tension csv)))
    as [strings [e|]]; cbn [fst] in *; [split; exact H|].
  unfold assign_name_guitar, assign_name_various, assign_mass.
  rewrite !map_map. split; exact H.
Qed.







(** *** The five densest gases *)

Lemma insert_by_density_Permutation (kr : string * fluid)
    (sorted : fluid_frame) :
  Permutation (insert_by_density kr sorted) (kr :: sorted).
Proof.
  induction sorted as [|kr' rest IH]; cbn [insert_by_density].
  - apply Permutation_refl.
  - destruct (Rle_dec (Density (snd kr)) (Density (snd kr')));
      [apply Permutation_refl|].
    apply (Permutation_trans (l' := kr' :: kr :: rest));
      [constructor; exact IH | constructor].
Qed.

Lemma insertion_sort_Permutation (fluids : fluid_frame) :
  Permutation (insertion_sort_by_density fluids) fluids.
Proof.
  induction fluids as [|kr rest IH]; cbn [insertion_sort_by_density].
  - constructor.
  - apply (Permutation_trans (insert_by_density_Permutation _ _)).
    constructor. exact IH.
Qed.

Lemma insert_by_density_sorted (kr : string * fluid) (sorted : fluid_frame) :
  StronglySorted by_density sorted ->
  StronglySorted by_density (insert_by_density kr sorted).
Proof.
  intro Hs. induction Hs as [|kr' rest Hrest IH Hall];
    cbn [insert_by_density].
  - constructor; constructor.
  - destruct (Rle_dec (Density (snd kr)) (Density (snd kr'))) as [Hle|Hgt].
    + constructor; [constructor; assumption|].
      constructor; [exact Hle|].
      refine (Forall_impl _ _ Hall). intros x Hx.
      unfold by_density in *. lra.
    + constructor; [exact IH|].
      apply (Permutation_Forall
               (Permutation_sym (insert_by_density_Permutation kr rest))).
      constructor; [unfold by_density; lra | exact Hall].
Qed.

Lemma insertion_sort_sorted (fluids : fluid_frame) :
  StronglySorted by_density (insertion_sort_by_density fluids).
Proof.
  induction fluids as [|kr rest IH]; cbn [insertion_sort_by_density].
  - constructor.
  - apply insert_by_density_sorted. exact IH.
Qed.

(** The two parts of a sorted list: the second is sorted and lies above
    the first. *)
Lemma StronglySorted_app_parts {A : Type} (Rel : A -> A -> Prop)
    (l1 l2 : list A) :
  StronglySorted Rel (l1 ++ l2)%list ->
  StronglySorted Rel l2 /\ Forall (fun x => Forall (Rel x) l2) l1.
Proof.
  induction l1 as [|x l1 IH]; cbn [app]; intro Hs.
  - split; [exact Hs | constructor].
  - inversion Hs as [|? ? Hrest Hall]; subst.
    destruct (IH Hrest) as [H2 H1]. split; [exact H2|].
    constructor; [|exact H1].
    apply Forall_app in Hall. exact (proj2 Hall).
Qed.

(** X15: [fluids[fluids['Phase'] == 'gas'].sort_values(by = 'Density')[-5:]],
    for any sort that returns its input in ascending order of density:
    the result has five rows, or all the gases when there are fewer; its
    rows are gases of the table, in ascending density; and the gases left
    out, together with the result all the gases of the table, are no
    denser than any row of the result. *)
Theorem densest_gases_spec (sort_values : fluid_frame -> fluid_frame)
    (fluids : fluid_frame) :
  (forall l : fluid_frame, Permutation (sort_values l) l) ->
  (forall l : fluid_frame, StronglySorted by_density (sort_values l)) ->
  List.length (densest_gases sort_values fluids)
  = Nat.min 5 (List.length (of_phase fluids "gas"))
  /\ Forall (fun kr => Phase (snd kr) = "gas" /\ In kr fluids)
            (densest_gases sort_values fluids)
  /\ StronglySorted by_density (densest_gases sort_values fluids)
  /\ exists rest : fluid_frame,
       Permutation (rest ++ densest_gases sort_values fluids)%list
                   (of_phase fluids "gas") /\
       Forall (fun kr =>
                 Forall (by_density kr) (densest_gases sort_values fluids))
              rest.
Proof.
  intros Hperm Hsorted. unfold densest_gases, last_rows.
  set (gases := of_phase fluids "gas").
  set (sorted := sort_values gases).
  assert (Hlen : List.length sorted = List.length gases)
    by (apply Permutation_length, Hperm).
  assert (Hsplit : (firstn (List.length sorted - 5) sorted ++
                    skipn (List.length sorted - 5) sorted)%list = sorted)
    by apply firstn_skipn.
  pose proof (Hsorted gases) as Hs. fold sorted in Hs.
  rewrite <- Hsplit in Hs.
  destruct (StronglySorted_app_parts _ _ _ Hs) as [Htop Hrest].
  split; [|split; [|split; [exact Htop|]]].
  - rewrite length_skipn. lia.
  - apply Forall_forall. intros kr Hin.
    assert (Hg : In kr gases).
    { apply (Permutation_in kr (Hperm gases)). fold sorted.
      rewrite <- Hsplit. apply in_or_app. right. exact Hin. }
    unfold gases, of_phase in Hg. apply filter_In in Hg.
    destruct Hg as [Hf Hp]. split; [|exact Hf].
    apply String.eqb_eq. exact Hp.
  - exists (firstn (List.length sorted - 5) sorted). split; [|exact Hrest].
    rewrite Hsplit. apply Hperm.
Qed.

Lemma densest_gases_spec_insertion :
  List.length
    (densest_gases insertion_sort_by_density
       [("Air", csv_fluid 1.2 343 "gas");
        ("Water", csv_fluid 998 1481 "liquid");
        ("Helium", csv_fluid 0.1664 1007 "gas")])
  = Nat.min 5
      (List.length
         (of_phase [("Air", csv_fluid 1.2 343 "gas");
                    ("Water", csv_fluid 998 1481 "liquid");
                    ("Helium", csv_fluid 0.1664 1007 "gas")] "gas"))
  /\ Forall (fun kr =>
               Phase (snd kr) = "gas" /\
               In kr [("Air", csv_fluid 1.2 343 "gas");
                      ("Water", csv_fluid 998 1481 "liquid");
                      ("Helium", csv_fluid 0.1664 1007 "gas")])
            (densest_gases insertion_sort_by_density
               [("Air", csv_fluid 1.2 343 "gas");
                ("Water", csv_fluid 998 1481 "liquid");
                ("Helium", csv_fluid 0.1664 1007 "gas")])
  /\ StronglySorted by_density
       (densest_gases insertion_sort_by_density
          [("Air", csv_fluid 1.2 343 "gas");
           ("Water", csv_fluid 998 1481 "liquid");
           ("Helium", csv_fluid 0.1664 1007 "gas")])
  /\ exists rest : fluid_frame,
       Permutation
         (rest ++ densest_gases insertion_sort_by_density
                    [("Air", csv_fluid 1.2 343 "gas");
                     ("Water", csv_fluid 998 1481 "liquid");
                     ("Helium", csv_fluid 0.1664 1007 "gas")])%list
         (of_phase [("Air", csv_fluid 1.2 343 "gas");
                    ("Water", csv_fluid 998 1481 "liquid");
                    ("Helium", csv_fluid 0.1664 1007 "gas")] "gas") /\
       Forall (fun kr =>
                 Forall (by_density kr)
                   (densest_gases insertion_sort_by_density
                      [("Air", csv_fluid 1.2 343 "gas");
                       ("Water", csv_fluid 998 1481 "liquid");
                       ("Helium", csv_fluid 0.1664 1007 "gas")]))
              rest.
Proof.
  apply (densest_gases_spec insertion_sort_by_density).
  - exact insertion_sort_Permutation.
  - exact insertion_sort_sorted.
Defined.

(** *** The bulk-modulus column, assigned again *)

Lemma assign_bulk_modulus_twice (fluids : fluid_frame) :
  assign_bulk_modulus (assign_bulk_modulus fluids) = assign_bulk_modulus fluids.
Proof.
  unfold assign_bulk_modulus. rewrite map_map. apply map_ext.
  intros [k row]. reflexivity.
Qed.

(** X16: assigning the bulk-modulus column keeps the index, the order
    of the rows and the three columns of the file; assigning it a second
    time changes nothing; and, in a table of distinct names, assigning it
    again after a density has been written gives that row
    density x sound_speed^2 of the new density. *)
Theorem assign_bulk_modulus_again (fluids : fluid_frame) :
  map (fun kr => (fst kr, Density (snd kr), Sound_speed (snd kr),
                  Phase (snd kr)))
      (assign_bulk_modulus fluids)
  = map (fun kr => (fst kr, Density (snd kr), Sound_speed (snd kr),
                    Phase (snd kr)))
        fluids
  /\ assign_bulk_modulus (assign_bulk_modulus fluids)
     = assign_bulk_modulus fluids
  /\ (forall (name : string) (v : R) (row : fluid),
        NoDup (map fst fluids) ->
        loc fluids name = Some row ->
        loc (assign_bulk_modulus
               (set_density (assign_bulk_modulus fluids) name v)) name
        = Some (mkFluid v (Sound_speed row) (Phase row)
                  (Some (v * Sound_speed row ^ 2)))).
Proof.
  split; [|split; [apply assign_bulk_modulus_twice|]].
  - unfold assign_bulk_modulus. rewrite map_map. apply map_ext.
    intros [k row]. reflexivity.
  - intros name v row _ Hloc.
    rewrite loc_assign_bulk_modulus.
    assert (H : loc (set_density (assign_bulk_modulus fluids) name v) name
                = Some (mkFluid v (Sound_speed row) (Phase row)
                          (Some (Density row * Sound_speed row ^ 2)))).
    { clear - Hloc. induction fluids as [|[k r] rest IH]; [discriminate|].
      cbn [assign_bulk_modulus set_density map loc] in *.
      destruct (String.eqb k name) eqn:E; cbn [loc]; rewrite E.
      - injection Hloc as ->. reflexivity.
      - exact (IH Hloc). }
    rewrite H. reflexivity.
Qed.

Lemma assign_bulk_modulus_again_air :
  loc (assign_bulk_modulus
         (set_density
            (assign_bulk_modulus [("Air", csv_fluid 1.2 343 "gas")]) "Air" 2))
      "Air"
  = Some (mkFluid 2 (Sound_speed (csv_fluid 1.2 343 "gas"))
            (Phase (csv_fluid 1.2 343 "gas"))
            (Some (2 * Sound_speed (csv_fluid 1.2 343 "gas") ^ 2))).
Proof.
  apply (proj2 (proj2 (assign_bulk_modulus_again
                         [("Air", csv_fluid 1.2 343 "gas")]))).
  - constructor; [intros [] | constructor].
  - reflexivity.
Defined.

(** *** The scale conversion *)

Lemma Forall2_map_right (Rel : string_row -> string_row -> Prop)
    (g : string_row -> string_row) (l0 l : string_frame) :
  (forall r0 r, Rel r0 r -> Rel r0 (g r)) ->
  Forall2 Rel l0 l -> Forall2 Rel l0 (map g l).
Proof.
  intros Hg H. induction H as [|r0 r l0 l Hr Hrest IH]; cbn [map];
    constructor; [apply Hg; exact Hr | exact IH].
Qed.

Lemma frequency_loop_Forall2 (Rel : string_row -> string_row -> Prop)
    (l0 l : string_frame) :
  (forall r0 r f, Rel r0 r -> Rel r0 (set_Frequency_Hz r (Some f))) ->
  Forall2 Rel l0 l -> Forall2 Rel l0 (fst (frequency_loop l)).
Proof.
  intros Hf H. induction H as [|r0 r l0 l Hr Hrest IH]; [constructor|].
  cbn [frequency_loop]. destruct (frequency (Note r)) as [f|e].
  - destruct (frequency_loop l) as [l' e']. cbn [fst] in *.
    constructor; [apply Hf; exact Hr | exact IH].
  - cbn [fst]. constructor; assumption.
Qed.

(** A relation between a row of the file and the row a loader leaves for
    it, set up by the conversions and kept by the later column writes,
    holds row by row between the file and the loaded table, whether the
    run completes or raises. *)
Lemma load_Forall2 (Rel : string_row -> string_row -> Prop)
    (csv : string_frame) :
  (forall r, Rel r (set_Scale_m
                      (set_Tension_N r (Some (Tension_kg r * 9.81)))
                      (Some (Scale_cm r / 100)))) ->
  (forall r0 r f, Rel r0 r -> Rel r0 (set_Frequency_Hz r (Some f))) ->
  (forall r0 r m, Rel r0 r -> Rel r0 (set_Mass_per_length r m)) ->
  (forall r0 r n, Rel r0 r -> Rel r0 (set_Name r n)) ->
  Forall2 Rel csv (fst (load_guitar csv)) /\
  Forall2 Rel csv (fst (load_various csv)).
Proof.
  intros H0 Hf Hm Hn.
  assert (Hconv : Forall2 Rel csv (assign_scale (assign_tension csv))).
  { unfold assign_scale, assign_tension. rewrite map_map.
    induction csv as [|r rest IH]; cbn [map]; constructor;
      [exact (H0 r) | exact IH]. }
  pose proof (frequency_loop_Forall2 Rel _ _ Hf Hconv) as H1.
  unfold load_guitar, load_various.
  destruct (frequency_loop (assign_scale (assign_tension csv)))
    as [strings [e|]]; cbn [fst] in *; [split; exact H1|].
  unfold assign_name_guitar, assign_name_various, assign_mass.
  rewrite !map_map.
  split; apply Forall2_map_right; try exact H1;
    intros r0 r Hr; apply Hn, Hm, Hr.
Qed.

(** X17: whether the run completes or raises, either loader leaves one
    row for each row of the file, in order, with the scale length in
    centimetres of that file row and, as scale length in metres, that
    value divided by 100. *)
Theorem scale_conversion (csv : string_frame) :
  Forall2 (fun r0 r => Scale_cm r = Scale_cm r0 /\
                       Scale_m r = Some (Scale_cm r0 / 100))
          csv (fst (load_guitar csv))
  /\ Forall2 (fun r0 r => Scale_cm r = Scale_cm r0 /\
                          Scale_m r = Some (Scale_cm r0 / 100))
             csv (fst (load_various csv)).
Proof.
  apply (load_Forall2
           (fun r0 r => Scale_cm r = Scale_cm r0 /\
                        Scale_m r = Some (Scale_cm r0 / 100)) csv).
  - intro r. split; reflexivity.
  - intros r0 r f H. exact H.
  - intros r0 r m H. exact H.
  - intros r0 r n H. exact H.
Qed.

(** *** NaN entries of a binary64 range *)

Lemma is_nan_Prim2SF (x : float) :
  is_nan x = true -> Prim2SF x = S754_nan.
Proof.
  unfold is_nan. rewrite FloatAxioms.eqb_spec.
  destruct (Prim2SF x) as [s|s| |s m e]; try reflexivity;
    cbn [SFeqb SFcompare negb]; try (destruct s; discriminate).
  destruct s; rewrite Z.compare_refl, ?Pos.compare_refl;
    rewrite ?Pos.compare_cont_refl; cbn; discriminate.
Qed.

Lemma Prim2SF_is_nan (x : float) :
  Prim2SF x = S754_nan -> is_nan x = true.
Proof.
  intro H. unfold is_nan. rewrite FloatAxioms.eqb_spec, H. reflexivity.
Qed.

(** X18: in binary64, a NaN entry in either range makes NaN of every
    impedance and wave-speed cell computed from it, without an error. *)
Theorem nan_entry_gives_nan_cells (t m : float) :
  is_nan t = true \/ is_nan m = true ->
  is_nan (z_cell t m) = true /\ is_nan (c_cell t m) = true.
Proof.
  intro H. unfold z_cell, c_cell. cbn [sqrt mul div float_arith].
  split; apply Prim2SF_is_nan;
    rewrite FloatAxioms.sqrt_spec, ?FloatAxioms.mul_spec, ?FloatAxioms.div_spec;
    destruct H as [H|H]; apply is_nan_Prim2SF in H; rewrite H;
    try reflexivity; destruct (Prim2SF t) as [s|s| |s ? ?]; reflexivity.
Qed.

Lemma nan_entry_gives_nan_cells_10 :
  is_nan (z_cell 10%float nan) = true /\ is_nan (c_cell 10%float nan) = true.
Proof.
  apply (nan_entry_gives_nan_cells 10%float nan). right. reflexivity.
Defined.
